(** * Slot machine: the round evaluator and the spin / reset handlers

    A shallow embedding of [src/script.js] (the client-side slot machine)
    and the properties of its win detection, payout and credit handling.

    Conventions of the embedding.
    - A grid cell is a JavaScript value.  The program only ever stores
      strings in a cell; [undefined] is what an array yields when it is
      indexed past its end.
    - [g[r][c]] throws a [TypeError] when [g[r]] is [undefined], and is
      [undefined] when only the column is missing.
    - The script's mutable variables and the part of the document it
      writes to are the fields of a state record, threaded through a
      state monad in which a thrown exception keeps the state reached.
    - [Math.floor(Math.random() * symbols.length)] is read from an
      oracle [rnd]: [rnd n] is the index computed by the [n]-th call of
      [randomSymbol].
    - [credits] is a JavaScript number holding an integer; it is a [Z]
      here, which is exact below 2^53.
    - The document the script runs in is not part of the script: which of
      the elements it looks up are there is a parameter, [page].
    - The spin handler is asynchronous.  It is split at its [await] into
      [spinBtn_click] and [spinBtn_resume]; [fire] and [reachable] let any
      other event run in between, and [spin] is one spin without any. *)

From Stdlib Require Import ZArith Lia.
From stdpp Require Import base list sets strings pretty.

(** ** JavaScript values held by grid cells *)

Inductive value : Type :=
  | VUndef
  | VStr (s : string).

#[global] Instance value_eq_dec : EqDecision value.
Proof. solve_decision. Defined.

(** [if (v)]: [undefined] and the empty string are falsy. *)
Definition truthy (v : value) : bool :=
  match v with
  | VUndef => false
  | VStr s => negb (String.eqb s "")
  end.

(** [a === b] *)
Definition strict_eq (a b : value) : bool := bool_decide (a = b).

(** ** Exceptions and state *)

Inductive outcome (A : Type) : Type :=
  | Done (a : A)
  | Threw (e : string).
Arguments Done {A} a.
Arguments Threw {A} e.

Definition M (St A : Type) : Type := St -> outcome A * St.

Definition ret {St A} (a : A) : M St A := fun s => (Done a, s).

Definition bind {St A B} (m : M St A) (k : A -> M St B) : M St B :=
  fun s =>
    match m s with
    | (Done a, s') => k a s'
    | (Threw e, s') => (Threw e, s')
    end.

Definition throw {St A} (e : string) : M St A := fun s => (Threw e, s).
Definition gets {St A} (f : St -> A) : M St A := fun s => (Done (f s), s).
Definition modify {St} (f : St -> St) : M St unit := fun s => (Done tt, f s).
Definition lift {St A} (o : outcome A) : M St A := fun s => (o, s).

Notation "x <- m ;; k" := (bind m (fun x => k))
  (at level 20, m at level 99, k at level 200, only parsing).
Notation "m ;; k" := (bind m (fun _ => k))
  (at level 100, k at level 200, right associativity, only parsing).

Definition when {St} (b : bool) (m : M St unit) : M St unit :=
  if b then m else ret tt.

(** [for (let i = lo; i < hi; i++) body(i)] *)
Fixpoint for_up {St} (n i : nat) (body : nat -> M St unit) : M St unit :=
  match n with
  | O => ret tt
  | S n' => body i ;; for_up n' (S i) body
  end.

Definition for_range {St} (lo hi : nat) (body : nat -> M St unit) : M St unit :=
  for_up (hi - lo) lo body.

(** [xs.forEach(body)] *)
Fixpoint for_each {St A} (xs : list A) (body : A -> M St unit) : M St unit :=
  match xs with
  | [] => ret tt
  | x :: xs' => body x ;; for_each xs' body
  end.

(** [Array.from({ length: n }, () => f())] *)
Fixpoint array_from {St A} (n : nat) (f : M St A) : M St (list A) :=
  match n with
  | O => ret []
  | S n' => x <- f ;; xs <- array_from n' f ;; ret (x :: xs)
  end.

(** ** Configuration *)

Definition ROWS : nat := 3.
Definition COLS : nat := 3.
Definition SPIN_COST : Z := 10%Z.
Definition SINGLE_LINE_REWARD : Z := 50%Z.
Definition MULTI_LINE_REWARD : Z := 100%Z.
Definition symbols : list string :=
  ["🍒"; "🍋"; "🍇"; "🔔"; "⭐"; "💎"; "7️⃣"].

(** ** Grids and lines *)

Abbreviation grid_t := (list (list value)).
Abbreviation coord := (nat * nat)%type.
Abbreviation line := (list (nat * nat)).

(** [g[r][c]] *)
Definition index2 (g : grid_t) (r c : nat) : outcome value :=
  match g !! r with
  | None => Threw "TypeError"
  | Some row => Done (default VUndef (row !! c))
  end.

(** ** Wins: [detectWinningLines]

    The local array [lines] is the state of the function; [reads]
    records every index pair at which the grid is read, in order. *)

Record dstate : Type := DState {
  lines : list line;
  reads : list coord;
}.

Definition push (l : line) (st : dstate) : dstate :=
  DState (lines st ++ [l]) (reads st).

Definition note (rc : coord) (st : dstate) : dstate :=
  DState (lines st) (reads st ++ [rc]).

Definition read (g : grid_t) (rc : coord) : M dstate value :=
  modify (note rc) ;; lift (index2 g rc.1 rc.2).

(** [g[a] && g[a] === g[b] && g[b] === g[c]], evaluated left to right
    with the short circuit of [&&]; the result is its truthiness. *)
Definition all_equal (g : grid_t) (a b c : coord) : M dstate bool :=
  x <- read g a ;;
  if truthy x then
    x1 <- read g a ;;
    y1 <- read g b ;;
    if strict_eq x1 y1 then
      y2 <- read g b ;;
      z2 <- read g c ;;
      ret (strict_eq y2 z2)
    else ret false
  else ret false.

Definition detectWinningLines_body (g : grid_t) : M dstate unit :=
  (* Rows *)
  for_range 0 ROWS (fun r =>
    t <- all_equal g (r, 0) (r, 1) (r, 2) ;;
    when t (modify (push [(r, 0); (r, 1); (r, 2)]))) ;;
  (* Cols *)
  for_range 0 COLS (fun c =>
    t <- all_equal g (0, c) (1, c) (2, c) ;;
    when t (modify (push [(0, c); (1, c); (2, c)]))) ;;
  (* Diagonals *)
  t1 <- all_equal g (0, 0) (1, 1) (2, 2) ;;
  when t1 (modify (push [(0, 0); (1, 1); (2, 2)])) ;;
  t2 <- all_equal g (0, 2) (1, 1) (2, 0) ;;
  when t2 (modify (push [(0, 2); (1, 1); (2, 0)])).

Definition detect_run (g : grid_t) : outcome (list line) * dstate :=
  (detectWinningLines_body g ;; gets lines) (DState [] []).

Definition detectWinningLines (g : grid_t) : outcome (list line) :=
  (detect_run g).1.

(** The index pairs read by a call, in order. *)
Definition detect_reads (g : grid_t) : list coord :=
  reads (detect_run g).2.

(** ** The eight lines and what it means to match one

    These follow the specification's wording: a Line is one of eight fixed
    coordinate triples, listed rows first (top to bottom), then columns
    (left to right), then the two diagonals; a line is matched when its
    three cells hold the same non-empty symbol. *)

Definition row_line (r : nat) : line := [(r, 0); (r, 1); (r, 2)].
Definition col_line (c : nat) : line := [(0, c); (1, c); (2, c)].
Definition diag_main : line := [(0, 0); (1, 1); (2, 2)].
Definition diag_anti : line := [(0, 2); (1, 1); (2, 0)].

Definition LINES : list line :=
  [row_line 0; row_line 1; row_line 2;
   col_line 0; col_line 1; col_line 2;
   diag_main; diag_anti].

(** The cell of [g] at a coordinate, when the grid has one there. *)
Definition cell (g : grid_t) (rc : coord) : option value :=
  g !! rc.1 ≫= (.!! rc.2).

Definition matched (g : grid_t) (l : line) : Prop :=
  ∃ s, s ≠ "" ∧ ∀ rc, rc ∈ l → cell g rc = Some (VStr s).

Definition is3x3 (g : grid_t) : Prop :=
  length g = 3 ∧ Forall (λ row, length row = 3) g.

Definition in_bounds (rc : coord) : Prop := rc.1 < 3 ∧ rc.2 < 3.

(** ** Proof-side description of one run of [detectWinningLines] *)

(** The value [g[r][c]] evaluates to when row [r] exists. *)
Definition at_ (g : grid_t) (rc : coord) : value :=
  default VUndef (cell g rc).

Definition wins3 (g : grid_t) (a b c : coord) : bool :=
  truthy (at_ g a) && strict_eq (at_ g a) (at_ g b)
  && strict_eq (at_ g b) (at_ g c).

Definition trace3 (g : grid_t) (a b c : coord) : list coord :=
  a :: (if truthy (at_ g a)
        then a :: b :: (if strict_eq (at_ g a) (at_ g b) then [b; c] else [])
        else []).

Definition wins (g : grid_t) (l : line) : bool :=
  match l with
  | [a; b; c] => wins3 g a b c
  | _ => false
  end.

Definition trace_of (g : grid_t) (l : line) : list coord :=
  match l with
  | [a; b; c] => trace3 g a b c
  | _ => []
  end.

(** The state after the checks of the lines [ls], in order. *)
Definition scan (g : grid_t) (ls : list line) (st : dstate) : dstate :=
  DState (lines st ++ filter (λ l, wins g l) ls)
         (reads st ++ concat (map (trace_of g) ls)).

Definition check (g : grid_t) (a b c : coord) : M dstate unit :=
  t <- all_equal g a b c ;;
  when t (modify (push [a; b; c])).

(** The lines pushed by a call, whether it returns or throws. *)
Definition pushed (g : grid_t) : list line := lines (detect_run g).2.

(** ** The page and the state of the game

    The script looks five elements up by id and guards most uses of them
    against [null]; [page] says which of them the document has. *)

Record page : Type := Page {
  has_spinBtn : bool;
  has_resetBtn : bool;
  has_creditsDisplay : bool;
  has_gridEl : bool;
  has_flashContainer : bool;
}.

(** A flash message: the colour class chosen for its category and its text. *)
Record alert : Type := Alert {
  alert_class : string;
  alert_message : string;
}.

#[global] Instance alert_eq_dec : EqDecision alert.
Proof. solve_decision. Defined.

(** - [credits], [grid]: the script's two variables;
    - [spinBtn_disabled]: the [disabled] property of the spin button;
    - [flash]: the children of the flash container;
    - [slot_cells]: the text of the cells of the grid element, in document
      order; [winning_cells]: the indices of those carrying the class
      [winning-cell];
    - [draws]: how many times [randomSymbol] has been called;
    - [pending]: how many runs of the spin handler are suspended at their
      [await].
    The classes [spinning] and [loading], the tweening of the credits
    display and the confetti are left out: nothing in the script reads
    them back. *)
Record world : Type := World {
  credits : Z;
  grid : grid_t;
  spinBtn_disabled : bool;
  flash : list alert;
  slot_cells : list string;
  winning_cells : list nat;
  draws : nat;
  pending : nat;
}.

Definition set_credits (x : Z) (w : world) : world :=
  World x (grid w) (spinBtn_disabled w) (flash w) (slot_cells w)
        (winning_cells w) (draws w) (pending w).
Definition set_grid (x : grid_t) (w : world) : world :=
  World (credits w) x (spinBtn_disabled w) (flash w) (slot_cells w)
        (winning_cells w) (draws w) (pending w).
Definition set_disabled (x : bool) (w : world) : world :=
  World (credits w) (grid w) x (flash w) (slot_cells w)
        (winning_cells w) (draws w) (pending w).
Definition set_flash (x : list alert) (w : world) : world :=
  World (credits w) (grid w) (spinBtn_disabled w) x (slot_cells w)
        (winning_cells w) (draws w) (pending w).
Definition set_cells (x : list string) (w : world) : world :=
  World (credits w) (grid w) (spinBtn_disabled w) (flash w) x
        (winning_cells w) (draws w) (pending w).
Definition set_winning (x : list nat) (w : world) : world :=
  World (credits w) (grid w) (spinBtn_disabled w) (flash w) (slot_cells w)
        x (draws w) (pending w).
Definition set_draws (x : nat) (w : world) : world :=
  World (credits w) (grid w) (spinBtn_disabled w) (flash w) (slot_cells w)
        (winning_cells w) x (pending w).
Definition set_pending (x : nat) (w : world) : world :=
  World (credits w) (grid w) (spinBtn_disabled w) (flash w) (slot_cells w)
        (winning_cells w) (draws w) x.

(** [classList.add]: a class is on an element or not. *)
Definition add_winning (idx : nat) (w : world) : world :=
  if bool_decide (idx ∈ winning_cells w) then w
  else set_winning (winning_cells w ++ [idx]) w.

(** What assigning a value to [textContent] leaves in the element. *)
Definition text_of (v : value) : string :=
  match v with
  | VUndef => ""
  | VStr s => s
  end.

Definition makeEmptyGrid : grid_t := replicate ROWS (replicate COLS (VStr "")).

(** The payout policy in the specification's words: nothing for no line,
    the single-line constant for exactly one, the multi-line constant for
    two or more. *)
Definition payout (n : nat) : Z :=
  match n with
  | 0 => 0%Z
  | 1 => SINGLE_LINE_REWARD
  | _ => MULTI_LINE_REWARD
  end.

Definition rejection : alert :=
  Alert "alert-danger" "🚫 Not enough credits to spin.".

(** Events of the page: a click on either button, a tick of the interval
    timer of a running animation ([attached] tells whether the cells that
    animation captured are still the ones in the document), and the end of
    an animation, which resumes the spin handler that awaits it. *)
Inductive event : Type :=
  | SpinClick
  | AnimationTick (attached : bool)
  | AnimationEnd
  | ResetClick.

Section Game.

Variable pg : page.
Variable rnd : nat → nat.

Definition updateSpinDisabledState : M world unit :=
  if negb (has_spinBtn pg) then ret tt
  else modify (λ w, set_disabled (credits w <? SPIN_COST)%Z w).

Definition updateCredits (value : Z) (immediate : bool) : M world unit :=
  if negb (has_creditsDisplay pg) then ret tt
  else modify (set_credits value).

Definition clearFlash : M world unit :=
  if has_flashContainer pg then modify (set_flash []) else ret tt.

Definition addFlash (category message : string) : M world unit :=
  if negb (has_flashContainer pg) then ret tt
  else
    let color :=
      if String.eqb category "danger" then "alert-danger"
      else if String.eqb category "warning" then "alert-warning"
      else if String.eqb category "success" then "alert-success"
      else if String.eqb category "secondary" then "alert-secondary"
      else "alert-info" in
    modify (λ w, set_flash (flash w ++ [Alert color message]) w).

Definition randomSymbol : M world value :=
  λ w, (Done (from_option VStr VUndef (symbols !! rnd (draws w))),
        set_draws (S (draws w)) w).

Definition randomGrid : M world grid_t :=
  array_from ROWS (array_from COLS randomSymbol).

Definition renderGrid (g : grid_t) (transient : bool) : M world unit :=
  if negb (has_gridEl pg) then ret tt
  else
    modify (λ w, set_winning [] (set_cells [] w)) ;;
    for_range 0 ROWS (λ r,
      for_range 0 COLS (λ c,
        v <- lift (index2 g r c) ;;
        t <- (if truthy v then ret v else randomSymbol) ;;
        modify (λ w, set_cells (slot_cells w ++ [text_of t]) w))).

Definition highlightWinningCells (ls : list line) : M world unit :=
  if negb (has_gridEl pg) then throw "TypeError"
  else
    n <- gets (λ w, length (slot_cells w)) ;;
    modify (set_winning []) ;;
    for_each ls (λ l,
      for_each l (λ rc,
        let idx := rc.1 * COLS + rc.2 in
        when (bool_decide (idx < n)) (modify (add_winning idx)))).

(** [startSpinAnimation] up to the creation of its promise. *)
Definition startSpinAnimation : M world unit :=
  if negb (has_spinBtn pg) || negb (has_gridEl pg) then ret tt
  else
    animGrid <- array_from ROWS (array_from COLS randomSymbol) ;;
    renderGrid animGrid true.

(** One tick of the interval: every captured cell gets a fresh symbol. *)
Definition animation_tick (attached : bool) : M world unit :=
  texts <- array_from (ROWS * COLS) (v <- randomSymbol ;; ret (text_of v)) ;;
  when attached (modify (set_cells texts)).

(** The spin handler up to its [await]; the result tells whether the
    handler is suspended there ([true]) or has returned ([false]). *)
Definition spinBtn_click : M world bool :=
  disabled <- gets spinBtn_disabled ;;
  if disabled then ret false
  else
    clearFlash ;;
    c <- gets credits ;;
    if (c <? SPIN_COST)%Z then
      addFlash "danger" "🚫 Not enough credits to spin." ;;
      updateSpinDisabledState ;;
      ret false
    else
      (* Charge cost *)
      modify (λ w, set_credits (credits w - SPIN_COST) w) ;;
      c' <- gets credits ;;
      updateCredits c' false ;;
      startSpinAnimation ;;
      modify (λ w, set_pending (S (pending w)) w) ;;
      ret true.

(** The spin handler from its [await] on. *)
Definition spinBtn_resume : M world unit :=
  modify (λ w, set_pending (pred (pending w)) w) ;;
  (* Randomize final grid *)
  g <- randomGrid ;;
  modify (set_grid g) ;;
  g1 <- gets grid ;;
  renderGrid g1 false ;;
  (* Check wins and pay out *)
  g2 <- gets grid ;;
  winningLines <- lift (detectWinningLines g2) ;;
  (if bool_decide (0 < length winningLines) then
     highlightWinningCells winningLines ;;
     let reward :=
       if bool_decide (length winningLines = 1)
       then SINGLE_LINE_REWARD else MULTI_LINE_REWARD in
     modify (λ w, set_credits (credits w + reward) w) ;;
     if bool_decide (length winningLines = 1) then
       addFlash "success"
         ("✅ 3-in-a-row! +" +:+ pretty SINGLE_LINE_REWARD +:+ " credits")
     else
       addFlash "success"
         ("🎉 Multiple 3-in-a-rows! +" +:+ pretty MULTI_LINE_REWARD
          +:+ " credits")
   else addFlash "info" "No win — try again!") ;;
  updateSpinDisabledState.

Definition resetBtn_click : M world unit :=
  modify (set_credits 100) ;;
  modify (set_grid makeEmptyGrid) ;;
  g <- gets grid ;;
  renderGrid g false ;;
  c <- gets credits ;;
  updateCredits c true ;;
  clearFlash ;;
  addFlash "secondary" "🔄 Game reset." ;;
  updateSpinDisabledState.

(** The initialisation that follows the declaration of the variables. *)
Definition init : M world unit :=
  c <- gets credits ;;
  updateCredits c true ;;
  g <- gets grid ;;
  renderGrid g false ;;
  updateSpinDisabledState.

(** A state in which the script has just been loaded: the variables hold
    their initial values, the document is as the page delivered it. *)
Definition loaded (w : world) : Prop :=
  credits w = 100%Z ∧ grid w = makeEmptyGrid ∧ pending w = 0.

(** The effect of an event, when the page can produce it. *)
Definition fire (e : event) (w : world) : option world :=
  match e with
  | SpinClick =>
      if has_spinBtn pg then Some (spinBtn_click w).2 else None
  | AnimationTick attached =>
      if has_gridEl pg && bool_decide (0 < pending w)
      then Some (animation_tick attached w).2 else None
  | AnimationEnd =>
      if bool_decide (0 < pending w) then Some (spinBtn_resume w).2 else None
  | ResetClick =>
      if has_resetBtn pg then Some (resetBtn_click w).2 else None
  end.

Inductive reachable : world → Prop :=
  | reach_init w0 : loaded w0 → reachable (init w0).2
  | reach_fire w e w' : reachable w → fire e w = Some w' → reachable w'.

(** A spin on its own: the click, [ticks] ticks of its animation (which
    only runs when there is a grid element), and the rest of the handler,
    with no other event in between. *)
Definition spin (ticks : nat) (w : world) : world :=
  match spinBtn_click w with
  | (Done true, w1) =>
      let w2 :=
        if has_gridEl pg
        then Nat.iter ticks (λ w, (animation_tick true w).2) w1
        else w1 in
      (spinBtn_resume w2).2
  | (_, w1) => w1
  end.

(** The states of a game played one action at a time: every spin has
    ended before the next click. *)
Inductive settled : world → Prop :=
  | settled_init w0 : loaded w0 → settled (init w0).2
  | settled_spin ticks w : settled w → settled (spin ticks w)
  | settled_reset w : settled w → settled (resetBtn_click w).2.

End Game.

(** ** Vocabulary of the proofs about the handlers *)

(** [m] ends, whether by returning or by throwing, in a state related by
    [R] to the one it started in. *)
Definition preserves {St A} (R : St → St → Prop) (m : M St A) : Prop :=
  ∀ s, R s (m s).2.

(** [m] returns: it does not throw. *)
Definition succeeds {St A} (m : M St A) : Prop :=
  ∀ s, ∃ a, (m s).1 = Done a.

(** Only what the page shows and the count of draws may differ. *)
Definition same_vars (w w' : world) : Prop :=
  credits w' = credits w ∧ grid w' = grid w
  ∧ spinBtn_disabled w' = spinBtn_disabled w
  ∧ flash w' = flash w ∧ pending w' = pending w.

(** The cells shown and the count of draws are as before. *)
Definition same_shown (w w' : world) : Prop :=
  slot_cells w' = slot_cells w ∧ draws w' = draws w.

(** Draws are only ever added. *)
Definition draws_le (w w' : world) : Prop := draws w ≤ draws w'.

(** The symbol selected by the [n]-th draw, and the grid that nine draws
    from the [k]-th on fill row by row. *)
Definition sym (rnd : nat → nat) (n : nat) : value :=
  from_option VStr VUndef (symbols !! rnd n).

Definition drawn_grid (rnd : nat → nat) (k : nat) : grid_t :=
  [[sym rnd k; sym rnd (1 + k); sym rnd (2 + k)];
   [sym rnd (3 + k); sym rnd (4 + k); sym rnd (5 + k)];
   [sym rnd (6 + k); sym rnd (7 + k); sym rnd (8 + k)]].

(** A cell that holds one of the seven symbols. *)
Definition symbol_cell (v : value) : Prop := ∃ s, s ∈ symbols ∧ v = VStr s.

(** An oracle that only yields indices into [symbols], as
    [Math.floor(Math.random() * symbols.length)] does. *)
Definition fair (rnd : nat → nat) : Prop := ∀ n, rnd n < length symbols.

(** The number of winning lines of a grid. *)
Definition line_count (g : grid_t) : nat := length (filter (λ l, wins g l) LINES).

(** The message that reports the outcome of a spin with [n] winning lines. *)
Definition outcome_alert (n : nat) : alert :=
  match n with
  | 0 => Alert "alert-info" "No win — try again!"
  | 1 => Alert "alert-success" "✅ 3-in-a-row! +50 credits"
  | _ => Alert "alert-success" "🎉 Multiple 3-in-a-rows! +100 credits"
  end.

(** ** Sample pages, oracles and states *)

Definition full_page : page := Page true true true true true.

(** The oracle that walks through the symbols in order. *)
Definition cycling (n : nat) : nat := n mod 7.

(** An oracle whose draws from the eighteenth on spell out
    [row_and_column]; the first spin of a loaded game settles on them. *)
Definition two_lines (n : nat) : nat :=
  default 1 ([0; 0; 0; 0; 3; 4; 0; 5; 6] !! (n - 18)).

(** The script's variables as declared, on a page that has not shown
    anything yet. *)
Definition fresh : world := World 100 makeEmptyGrid false [] [] [] 0 0.

(** The game once loaded, after nine and after ten spins that win nothing,
    and in the middle of the tenth. *)
Definition started : world := (init full_page cycling fresh).2.
Definition last_credits : world := Nat.iter 9 (spin full_page cycling 0) started.
Definition mid_spin : world := (spinBtn_click full_page cycling last_credits).2.
Definition broke : world := Nat.iter 10 (spin full_page cycling 0) started.

(** What the specification promises of a spin attempted in [w] without
    the credits for it: nothing changes and the rejection is shown. *)
Definition rejected_with_notice (pg : page) (rnd : nat → nat) (w : world) : Prop :=
  let w' := (spinBtn_click pg rnd w).2 in
  credits w' = credits w ∧ grid w' = grid w ∧ draws w' = draws w
  ∧ pending w' = pending w ∧ rejection ∈ flash w'.



(** What the specification promises of the reward of a spin from [w] to
    [w'] that left two or more winning lines: it is not the single-line
    constant once per line. *)
Definition never_the_sum (w w' : world) : Prop :=
  ∀ ls, detectWinningLines (grid w') = Done ls → 2 ≤ length ls →
    credits w'
    ≠ (credits w - SPIN_COST + Z.of_nat (length ls) * SINGLE_LINE_REWARD)%Z.

(** ** Sample grids (the three examples of the specification, and a full house) *)

Definition row_only : grid_t :=
  [[VStr "🍒"; VStr "🍒"; VStr "🍒"];
   [VStr "🍋"; VStr "🍇"; VStr "🔔"];
   [VStr "⭐"; VStr "💎"; VStr "7️⃣"]].

Definition row_and_column : grid_t :=
  [[VStr "🍒"; VStr "🍒"; VStr "🍒"];
   [VStr "🍒"; VStr "🔔"; VStr "⭐"];
   [VStr "🍒"; VStr "💎"; VStr "7️⃣"]].

Definition no_line : grid_t :=
  [[VStr "🍒"; VStr "🍋"; VStr "🍇"];
   [VStr "🔔"; VStr "⭐"; VStr "💎"];
   [VStr "7️⃣"; VStr "🍒"; VStr "🍋"]].

Definition all_bells : grid_t := replicate 3 (replicate 3 (VStr "🔔")).

(** ** Vocabulary of the further properties *)

(** A grid whose rows have two, four, one and three cells. *)
Definition ragged : grid_t :=
  [[VStr "🍒"; VStr "🍒"];
   [VStr "🍒"; VStr "🍒"; VStr "🍒"; VStr "🍒"];
   [VStr "🍒"];
   [VStr "🍒"; VStr "🍒"; VStr "🍒"]].

(** The nine cells of the top-left block hold one non-empty string. *)
Definition uniform (g : grid_t) : Prop :=
  ∃ s, s ≠ "" ∧ ∀ rc, in_bounds rc → cell g rc = Some (VStr s).

(** The nine coordinates in the order [renderGrid] visits them. *)
Definition cells9 : list coord :=
  [(0, 0); (0, 1); (0, 2); (1, 0); (1, 1); (1, 2); (2, 0); (2, 1); (2, 2)].

(** What [renderGrid] does for one cell. *)
Definition render_cell (rnd : nat → nat) (g : grid_t) (w : world) (rc : coord) : world :=
  if truthy (at_ g rc)
  then set_cells (slot_cells w ++ [text_of (at_ g rc)]) w
  else set_cells (slot_cells w ++ [text_of (sym rnd (draws w))])
         (set_draws (S (draws w)) w).

(** The text a rendered cell may hold: the cell's own when it has one,
    else one of the symbols. *)
Definition shows (g : grid_t) (rc : coord) (t : string) : Prop :=
  if truthy (at_ g rc) then VStr t = at_ g rc else t ∈ symbols.

(** A cell for which [renderGrid] draws a symbol: empty or missing. *)
Definition blank (g : grid_t) (rc : coord) : Prop := truthy (at_ g rc) = false.

#[global] Instance blank_dec (g : grid_t) (rc : coord) : Decision (blank g rc) :=
  decide (truthy (at_ g rc) = false).

(** The body of the inner loop of [renderGrid]. *)
Definition render_body (rnd : nat → nat) (g : grid_t) (r c : nat) : M world unit :=
  v <- lift (index2 g r c) ;;
  t <- (if truthy v then ret v else randomSymbol rnd) ;;
  modify (λ w, set_cells (slot_cells w ++ [text_of t]) w).

(** The position of a cell among the cells of the grid element. *)
Definition cell_index (rc : coord) : nat := rc.1 * COLS + rc.2.

(** What [highlightWinningCells] does for one coordinate of one line, on a
    grid element of [n] cells. *)
Definition mark (n : nat) (w : world) (rc : coord) : world :=
  if bool_decide (cell_index rc < n) then add_winning (cell_index rc) w else w.

(** The page shows nine cells, and the highlighted ones are distinct cells
    among them. *)
Definition page_ok (w : world) : Prop :=
  length (slot_cells w) = 9
  ∧ NoDup (winning_cells w)
  ∧ Forall (λ i, i < 9) (winning_cells w).

(** The [keydown] listener of [addKeyboardSupport]: the space bar clicks the
    spin button when there is one and it is enabled.  The result tells
    whether the default action of the key was prevented. *)
Definition keydown (pg : page) (rnd : nat → nat) (code : string) (w : world) :
    bool * world :=
  if bool_decide (code = "Space") && has_spinBtn pg && negb (spinBtn_disabled w)
  then (true, (spinBtn_click pg rnd w).2)
  else (false, w).

(** ** The symbol changes of the server-rendered page

    [startRapidChange] of static/script.js: the span of one cell, the
    counter and the interval that the function sets up. *)
Record span_state := Span {
  textContent : string;
  changeCount : nat;
  cleared : bool;
  drawn : nat
}.

Definition maxChanges : nat := 8.

(** One firing of the interval's callback. *)
Definition changeInterval (rnd : nat → nat) (s : span_state) : span_state :=
  if maxChanges <=? changeCount s
  then Span (textContent s) (changeCount s) true (drawn s)
  else Span (text_of (sym rnd (drawn s))) (S (changeCount s)) (cleared s)
         (S (drawn s)).

(** The timer reaches its period: a cleared interval does not fire. *)
Definition period (rnd : nat → nat) (s : span_state) : span_state :=
  if cleared s then s else changeInterval rnd s.

(** The state [startRapidChange] sets up for a cell whose span shows
    [text], with [d] draws made before. *)
Definition startRapidChange (text : string) (d : nat) : span_state :=
  Span text 0 false d.

(** A page that lacks the grid element and has everything else. *)
Definition no_grid_page : page := Page true true true false true.

(** ** The monad, pointwise *)

Lemma bind_done {St A B} (m : M St A) (k : A -> M St B) s a s' :
  m s = (Done a, s') → bind m k s = k a s'.
Proof. unfold bind. by intros ->. Qed.

Lemma bind_threw {St A B} (m : M St A) (k : A -> M St B) s e s' :
  m s = (Threw e, s') → bind m k s = (Threw e, s').
Proof. unfold bind. by intros ->. Qed.

Lemma bind_assoc {St A B C} (m : M St A) (f : A -> M St B) (k : B -> M St C) s :
  bind (bind m f) k s = bind m (λ x, bind (f x) k) s.
Proof. unfold bind. by destruct (m s) as [[a|e] s']. Qed.

Lemma bind_gets {St A B} (f : St → A) (k : A → M St B) s :
  bind (gets f) k s = k (f s) s.
Proof. reflexivity. Qed.

Lemma bind_modify {St B} (f : St → St) (k : unit → M St B) s :
  bind (modify f) k s = k tt (f s).
Proof. reflexivity. Qed.

(** ** Reading the grid *)

Lemma index2_row (g : grid_t) (r c : nat) :
  r < length g → index2 g r c = Done (at_ g (r, c)).
Proof.
  intros Hr. unfold index2, at_, cell. simpl.
  destruct (lookup_lt_is_Some_2 g r Hr) as [row ->]. done.
Qed.

Lemma index2_no_row (g : grid_t) (r c : nat) :
  length g ≤ r → index2 g r c = Threw "TypeError".
Proof.
  intros Hr. unfold index2. by rewrite (lookup_ge_None_2 g r Hr).
Qed.

Lemma read_row (g : grid_t) (rc : coord) st :
  rc.1 < length g → read g rc st = (Done (at_ g rc), note rc st).
Proof.
  intros Hr. unfold read, bind, modify, lift.
  destruct rc as [r c]. by rewrite index2_row.
Qed.

Lemma read_no_row (g : grid_t) (rc : coord) st :
  length g ≤ rc.1 → read g rc st = (Threw "TypeError", note rc st).
Proof.
  intros Hr. unfold read, bind, modify, lift.
  by rewrite index2_no_row.
Qed.

Lemma all_equal_run (g : grid_t) (a b c : coord) st :
  a.1 < length g → b.1 < length g → c.1 < length g →
  all_equal g a b c st
  = (Done (wins3 g a b c), DState (lines st) (reads st ++ trace3 g a b c)).
Proof.
  intros Ha Hb Hc. unfold all_equal, wins3, trace3.
  rewrite (bind_done _ _ _ _ _ (read_row g a st Ha)).
  destruct (truthy (at_ g a)); simpl.
  2: { unfold ret, note. done. }
  rewrite (bind_done _ _ _ _ _ (read_row g a _ Ha)).
  rewrite (bind_done _ _ _ _ _ (read_row g b _ Hb)).
  destruct (strict_eq (at_ g a) (at_ g b)); simpl.
  2: { unfold ret, note. simpl. by rewrite <- !app_assoc. }
  rewrite (bind_done _ _ _ _ _ (read_row g b _ Hb)).
  rewrite (bind_done _ _ _ _ _ (read_row g c _ Hc)).
  unfold ret, note. simpl. by rewrite <- !app_assoc.
Qed.

Lemma when_push_run (t : bool) (l : line) st :
  when t (modify (push l)) st
  = (Done tt, DState (lines st ++ (if t then [l] else [])) (reads st)).
Proof. destruct t; simpl; [done|]. unfold ret. rewrite app_nil_r. by destruct st. Qed.

Lemma scan_one (g : grid_t) (a b c : coord) st :
  DState (lines st ++ (if wins3 g a b c then [[a; b; c]] else []))
         (reads st ++ trace3 g a b c)
  = scan g [[a; b; c]] st.
Proof.
  unfold scan. simpl. rewrite app_nil_r. rewrite filter_cons, filter_nil.
  simpl. by destruct (wins3 g a b c).
Qed.

Lemma check_run (g : grid_t) (a b c : coord) st :
  a.1 < length g → b.1 < length g → c.1 < length g →
  check g a b c st = (Done tt, scan g [[a; b; c]] st).
Proof.
  intros Ha Hb Hc. unfold check.
  rewrite (bind_done _ _ _ _ _ (all_equal_run g a b c st Ha Hb Hc)).
  rewrite when_push_run. cbn [lines reads]. by rewrite scan_one.
Qed.

Lemma check_no_row (g : grid_t) (a b c : coord) st :
  length g ≤ a.1 → check g a b c st = (Threw "TypeError", note a st).
Proof.
  intros Ha. unfold check, all_equal.
  rewrite bind_assoc.
  by rewrite (bind_threw _ _ _ _ _ (read_no_row g a st Ha)).
Qed.

Lemma scan_app g l1 l2 st : scan g l2 (scan g l1 st) = scan g (l1 ++ l2) st.
Proof.
  unfold scan. simpl.
  by rewrite filter_app, map_app, concat_app, !app_assoc.
Qed.

Lemma body_checks g :
  detectWinningLines_body g
  = ((check g (0, 0) (0, 1) (0, 2) ;; check g (1, 0) (1, 1) (1, 2) ;;
      check g (2, 0) (2, 1) (2, 2) ;; ret tt) ;;
     (check g (0, 0) (1, 0) (2, 0) ;; check g (0, 1) (1, 1) (2, 1) ;;
      check g (0, 2) (1, 2) (2, 2) ;; ret tt) ;;
     t <- all_equal g (0, 0) (1, 1) (2, 2) ;;
     when t (modify (push [(0, 0); (1, 1); (2, 2)])) ;;
     check g (0, 2) (1, 1) (2, 0)).
Proof. reflexivity. Qed.

Ltac run_check :=
  erewrite bind_done by (apply check_run; simpl; lia).

(** With three rows or more every read finds its row, and the call is the
    scan of the eight lines in their fixed order. *)
Lemma detect_run_rows (g : grid_t) :
  3 ≤ length g →
  detect_run g
  = (Done (filter (λ l, wins g l) LINES), scan g LINES (DState [] [])).
Proof.
  intros Hg. unfold detect_run. rewrite body_checks.
  set (st0 := DState [] []).
  assert (Hrows :
    (check g (0, 0) (0, 1) (0, 2) ;; check g (1, 0) (1, 1) (1, 2) ;;
     check g (2, 0) (2, 1) (2, 2) ;; ret tt) st0
    = (Done tt, scan g [row_line 0; row_line 1; row_line 2] st0)).
  { run_check.
    run_check.
    run_check.
    by rewrite !scan_app. }
  rewrite bind_assoc.
  rewrite (bind_done _ _ _ _ _ Hrows).
  set (st1 := scan g _ st0).
  assert (Hcols :
    (check g (0, 0) (1, 0) (2, 0) ;; check g (0, 1) (1, 1) (2, 1) ;;
     check g (0, 2) (1, 2) (2, 2) ;; ret tt) st1
    = (Done tt, scan g [col_line 0; col_line 1; col_line 2] st1)).
  { run_check.
    run_check.
    run_check.
    by rewrite !scan_app. }
  rewrite bind_assoc.
  rewrite (bind_done _ _ _ _ _ Hcols).
  subst st1. rewrite scan_app.
  rewrite bind_assoc.
  erewrite bind_done by (apply all_equal_run; simpl; lia).
  rewrite bind_assoc.
  erewrite bind_done by apply when_push_run.
  cbn [lines reads]. rewrite scan_one, scan_app.
  run_check.
  rewrite scan_app. simpl. reflexivity.
Qed.

(** With fewer than three rows the row loop reaches a missing row and the
    read of its first cell throws; the rows before it have been checked. *)
Lemma detect_run_short (g : grid_t) :
  length g < 3 →
  detect_run g
  = (Threw "TypeError",
     note (length g, 0)
       (scan g (take (length g) [row_line 0; row_line 1; row_line 2])
          (DState [] []))).
Proof.
  intros Hg. unfold detect_run. rewrite body_checks.
  apply bind_threw, bind_threw.
  destruct g as [|r0 [|r1 [|r2 g]]]; simpl in Hg; [| | |lia].
  - apply bind_threw. apply check_no_row. simpl. lia.
  - run_check. apply bind_threw.
    rewrite check_no_row by (simpl; lia). done.
  - run_check. run_check. rewrite scan_app. apply bind_threw.
    rewrite check_no_row by (simpl; lia). done.
Qed.

Lemma detect_cases (g : grid_t) :
  (3 ≤ length g ∧ detectWinningLines g = Done (filter (λ l, wins g l) LINES)
   ∧ pushed g = filter (λ l, wins g l) LINES
   ∧ detect_reads g = concat (map (trace_of g) LINES))
  ∨ (length g < 3 ∧ detectWinningLines g = Threw "TypeError"
     ∧ pushed g = filter (λ l, wins g l) (take (length g) LINES)
     ∧ detect_reads g
       = concat (map (trace_of g) (take (length g) LINES)) ++ [(length g, 0)]).
Proof.
  unfold detectWinningLines, pushed, detect_reads.
  destruct (decide (3 ≤ length g)) as [Hg|Hg].
  - left. rewrite detect_run_rows by done. done.
  - right. rewrite detect_run_short by lia.
    split; [lia|]. split; [done|].
    destruct g as [|r0 [|r1 [|r2 g]]]; simpl in Hg; [done..|lia].
Qed.

(** ** Matching, in the code's terms and in the specification's *)

Lemma truthy_VStr (v : value) :
  truthy v = true ↔ ∃ s, s ≠ "" ∧ v = VStr s.
Proof.
  destruct v as [|s]; simpl.
  - split; [done|]. by intros (s & _ & ?).
  - rewrite negb_true_iff, String.eqb_neq. split.
    + intros Hs. by exists s.
    + by intros (s' & Hs & [= ->]).
Qed.

Lemma at_VStr (g : grid_t) (rc : coord) (s : string) :
  at_ g rc = VStr s ↔ cell g rc = Some (VStr s).
Proof.
  unfold at_. destruct (cell g rc) as [v|]; simpl.
  - split; congruence.
  - split; congruence.
Qed.

Lemma wins3_matched (g : grid_t) (a b c : coord) :
  wins3 g a b c = true ↔ matched g [a; b; c].
Proof.
  unfold wins3, matched, strict_eq.
  rewrite !andb_true_iff, !bool_decide_eq_true, truthy_VStr. split.
  - intros [[(s & Hs & Ha) Hab] Hbc]. exists s. split; [done|].
    intros rc Hrc. apply at_VStr.
    rewrite !elem_of_cons, elem_of_nil in Hrc.
    destruct Hrc as [->|[->|[->|[]]]]; congruence.
  - intros (s & Hs & Hall).
    assert (Ha : at_ g a = VStr s) by (apply at_VStr, Hall; set_solver).
    assert (Hb : at_ g b = VStr s) by (apply at_VStr, Hall; set_solver).
    assert (Hc : at_ g c = VStr s) by (apply at_VStr, Hall; set_solver).
    rewrite Ha, Hb, Hc. eauto.
Qed.

Lemma LINES_triples (l : line) :
  l ∈ LINES → ∃ a b c, l = [a; b; c] ∧ in_bounds a ∧ in_bounds b ∧ in_bounds c.
Proof.
  unfold LINES, in_bounds. rewrite !elem_of_cons, elem_of_nil.
  intros H. repeat destruct H as [->|H]; try done;
    do 3 eexists; (split; [reflexivity|]); simpl; lia.
Qed.

Lemma wins_matched (g : grid_t) (l : line) :
  l ∈ LINES → wins g l = true ↔ matched g l.
Proof.
  intros (a & b & c & -> & _)%LINES_triples. apply wins3_matched.
Qed.

Lemma row_line_LINES (r : nat) : r < 3 → row_line r ∈ LINES.
Proof.
  intros Hr. assert (r = 0 ∨ r = 1 ∨ r = 2) as [->|[->| ->]] by lia;
    apply (bool_decide_unpack _); vm_compute; exact I.
Qed.

Lemma col_line_LINES (c : nat) : c < 3 → col_line c ∈ LINES.
Proof.
  intros Hc. assert (c = 0 ∨ c = 1 ∨ c = 2) as [->|[->| ->]] by lia;
    apply (bool_decide_unpack _); vm_compute; exact I.
Qed.

Lemma diag_main_LINES : diag_main ∈ LINES.
Proof. apply (bool_decide_unpack _). vm_compute. exact I. Qed.

Lemma diag_anti_LINES : diag_anti ∈ LINES.
Proof. apply (bool_decide_unpack _). vm_compute. exact I. Qed.

Lemma NoDup_LINES : NoDup LINES.
Proof. apply (bool_decide_unpack _). vm_compute. exact I. Qed.

Lemma trace3_within (g : grid_t) (a b c : coord) :
  Forall (λ rc, rc ∈ [a; b; c]) (trace3 g a b c).
Proof.
  unfold trace3.
  destruct (truthy (at_ g a)), (strict_eq (at_ g a) (at_ g b));
    repeat apply Forall_cons_2; try apply Forall_nil_2; set_solver.
Qed.

Lemma trace_in_bounds (g : grid_t) (ls : list line) :
  ls ⊆ LINES → Forall in_bounds (concat (map (trace_of g) ls)).
Proof.
  intros Hls. apply Forall_concat, Forall_fmap, Forall_forall.
  intros l Hl. destruct (LINES_triples l (Hls l Hl)) as (a & b & c & -> & Ha & Hb & Hc).
  simpl. eapply Forall_impl; [apply trace3_within|].
  intros rc. rewrite !elem_of_cons, elem_of_nil.
  intros [->|[->|[->|[]]]]; done.
Qed.

Lemma cell_in_bounds (g : grid_t) (rc : coord) :
  is3x3 g → in_bounds rc → is_Some (cell g rc).
Proof.
  intros [Hlen Hrows] [Hr Hc]. unfold cell.
  destruct (lookup_lt_is_Some_2 g rc.1) as [row Hrow]; [lia|].
  rewrite Hrow. simpl. apply lookup_lt_is_Some_2.
  rewrite Forall_lookup in Hrows. rewrite (Hrows _ _ Hrow). done.
Qed.

Lemma detect_reads_in_bounds (g : grid_t) :
  Forall in_bounds (detect_reads g).
Proof.
  destruct (detect_cases g) as [(_ & _ & _ & ->)|(Hg & _ & _ & ->)].
  - by apply trace_in_bounds.
  - apply Forall_app. split.
    + apply trace_in_bounds. intros l Hl.
      eapply elem_of_sublist; [done|apply sublist_take].
    + apply Forall_singleton. split; simpl; lia.
Qed.

(** ** Properties of [detectWinningLines] *)

(** C1.  On a 3x3 grid [detectWinningLines] returns, and a line is in the
    result exactly when it is one of the eight fixed lines and its three
    cells hold one and the same non-empty value.  In particular a row, a
    column or a diagonal filled with one non-empty value is in the result,
    and without any such line among the eight the result is empty. *)
Theorem detectWinningLines_matched (g : grid_t) :
  is3x3 g →
  ∃ ls, detectWinningLines g = Done ls
    ∧ (∀ l, l ∈ ls ↔ l ∈ LINES ∧ matched g l)
    ∧ (∀ r s, r < 3 → s ≠ "" →
         (∀ c, c < 3 → cell g (r, c) = Some (VStr s)) → row_line r ∈ ls)
    ∧ (∀ c s, c < 3 → s ≠ "" →
         (∀ r, r < 3 → cell g (r, c) = Some (VStr s)) → col_line c ∈ ls)
    ∧ (∀ s, s ≠ "" →
         (∀ i, i < 3 → cell g (i, i) = Some (VStr s)) → diag_main ∈ ls)
    ∧ (∀ s, s ≠ "" →
         (∀ i, i < 3 → cell g (i, 2 - i) = Some (VStr s)) → diag_anti ∈ ls)
    ∧ ((∀ l, l ∈ LINES → ¬ matched g l) → ls = []).
Proof.
  intros [Hlen _].
  destruct (detect_cases g) as [(_ & Hd & _)|(Hg & _)]; [|lia].
  exists (filter (λ l, wins g l) LINES). split; [done|].
  assert (Hiff : ∀ l, l ∈ filter (λ l, wins g l) LINES ↔ l ∈ LINES ∧ matched g l).
  { intros l. rewrite list_elem_of_filter, Is_true_true. split.
    - intros [Hw Hl]. split; [done|]. by apply wins_matched.
    - intros [Hl Hm]. split; [|done]. by apply wins_matched. }
  split; [done|].
  repeat split.
  - intros r s Hr Hs Hrow. apply Hiff. split.
    + by apply row_line_LINES.
    + exists s. split; [done|]. intros rc. unfold row_line.
      rewrite !elem_of_cons, elem_of_nil.
      intros [->|[->|[->|[]]]]; apply Hrow; lia.
  - intros c s Hc Hs Hcol. apply Hiff. split.
    + by apply col_line_LINES.
    + exists s. split; [done|]. intros rc. unfold col_line.
      rewrite !elem_of_cons, elem_of_nil.
      intros [->|[->|[->|[]]]]; apply Hcol; lia.
  - intros s Hs Hd'. apply Hiff. split.
    + apply diag_main_LINES.
    + exists s. split; [done|]. intros rc. unfold diag_main.
      rewrite !elem_of_cons, elem_of_nil.
      intros [->|[->|[->|[]]]]; apply Hd'; lia.
  - intros s Hs Hd'. apply Hiff. split.
    + apply diag_anti_LINES.
    + exists s. split; [done|]. intros rc. unfold diag_anti.
      rewrite !elem_of_cons, elem_of_nil.
      intros [->|[->|[->|[]]]].
      * apply (Hd' 0); lia.
      * apply (Hd' 1); lia.
      * apply (Hd' 2); lia.
  - intros Hnone.
    destruct (filter (λ l, wins g l) LINES) as [|l ls'] eqn:Hf; [done|].
    exfalso. destruct (Hiff l) as [Hin _].
    destruct Hin as [Hl Hm]; [apply list_elem_of_here|].
    by apply (Hnone l).
Qed.

Lemma detectWinningLines_matched_witness :
  is3x3 row_and_column
  ∧ ∃ ls, detectWinningLines row_and_column = Done ls
      ∧ row_line 0 ∈ ls ∧ col_line 0 ∈ ls.
Proof.
  assert (H3 : is3x3 row_and_column).
  { split; [reflexivity|]. repeat apply Forall_cons_2; by try apply Forall_nil_2. }
  split; [exact H3|].
  destruct (detectWinningLines_matched row_and_column H3)
    as (ls & Hd & _ & Hrow & Hcol & _).
  exists ls. split; [exact Hd|]. split.
  - apply (Hrow 0 "🍒"); [lia|done|].
    intros c Hc. assert (c = 0 ∨ c = 1 ∨ c = 2) as [->|[->| ->]] by lia; reflexivity.
  - apply (Hcol 0 "🍒"); [lia|done|].
    intros r Hr. assert (r = 0 ∨ r = 1 ∨ r = 2) as [->|[->| ->]] by lia; reflexivity.
Defined.

(** The three examples of the specification. *)

Example row_only_one_line :
  detectWinningLines row_only = Done [row_line 0]
  ∧ payout (line_count row_only) = SINGLE_LINE_REWARD.
Proof. split; vm_compute; reflexivity. Qed.

Example row_and_column_two_lines :
  detectWinningLines row_and_column = Done [row_line 0; col_line 0]
  ∧ payout (line_count row_and_column) = MULTI_LINE_REWARD.
Proof. split; vm_compute; reflexivity. Qed.

Example no_line_nothing :
  detectWinningLines no_line = Done []
  ∧ payout (line_count no_line) = 0%Z.
Proof. split; vm_compute; reflexivity. Qed.

(** A grid that is not 3x3: its second row is missing, and the call throws
    when it reaches for it. *)
Example one_row_throws :
  detectWinningLines [[VStr "🍒"; VStr "🍒"; VStr "🍒"]] = Threw "TypeError"
  ∧ pushed [[VStr "🍒"; VStr "🍒"; VStr "🍒"]] = [row_line 0]
  ∧ detect_reads [[VStr "🍒"; VStr "🍒"; VStr "🍒"]]
    = [(0, 0); (0, 0); (0, 1); (0, 1); (0, 2); (1, 0)].
Proof. repeat split; vm_compute; reflexivity. Qed.

(** C4.  For every grid the lines that [detectWinningLines] pushes form a
    subsequence of the fixed list [LINES]: the three rows top to bottom,
    then the three columns left to right, then the diagonal from the top
    left, then the one from the top right.  What the call returns is that
    list; it only fails to return for a grid with fewer than three rows. *)
Theorem detectWinningLines_order (g : grid_t) :
  sublist (pushed g) LINES
  ∧ match detectWinningLines g with
    | Done ls => ls = pushed g
    | Threw _ => length g < 3
    end.
Proof.
  destruct (detect_cases g) as [(_ & -> & -> & _)|(Hg & -> & -> & _)].
  - split; [apply sublist_filter|done].
  - split; [|done].
    etrans; [apply sublist_filter|apply sublist_take].
Qed.

(** C9.  On a 3x3 grid the list returned by [detectWinningLines] has no
    duplicates, holds only lines of the eight fixed ones, and so has at
    most eight elements. *)
Theorem detectWinningLines_nodup (g : grid_t) :
  is3x3 g →
  ∃ ls, detectWinningLines g = Done ls
    ∧ NoDup ls
    ∧ (∀ l, l ∈ ls → l ∈ LINES)
    ∧ length ls ≤ 8
    ∧ length LINES = 8.
Proof.
  intros [Hlen _].
  destruct (detect_cases g) as [(_ & Hd & _)|(Hg & _)]; [|lia].
  exists (filter (λ l, wins g l) LINES).
  assert (Hsub : sublist (filter (λ l, wins g l) LINES) LINES)
    by apply sublist_filter.
  split; [done|]. split; [|split; [|split]].
  - eapply sublist_NoDup; [apply NoDup_LINES|done].
  - intros l Hl. by eapply elem_of_sublist.
  - by apply sublist_length in Hsub.
  - reflexivity.
Qed.

Lemma detectWinningLines_nodup_witness :
  is3x3 all_bells
  ∧ ∃ ls, detectWinningLines all_bells = Done ls ∧ NoDup ls ∧ length ls ≤ 8.
Proof.
  assert (H3 : is3x3 all_bells).
  { split; [reflexivity|]. repeat apply Forall_cons_2; by try apply Forall_nil_2. }
  split; [exact H3|].
  destruct (detectWinningLines_nodup all_bells H3) as (ls & Hd & Hn & _ & Hl & _).
  exists ls. split; [exact Hd|]. split; [exact Hn|exact Hl].
Defined.

(** C10.  On a 3x3 grid [detectWinningLines] returns a result, and every
    index pair at which it reads the grid has its row and its column
    between 0 and 2, where the grid has a cell. *)
Theorem detectWinningLines_total (g : grid_t) :
  is3x3 g →
  (∃ ls, detectWinningLines g = Done ls)
  ∧ Forall (λ rc, in_bounds rc ∧ is_Some (cell g rc)) (detect_reads g).
Proof.
  intros H3. split.
  - destruct H3 as [Hlen _].
    destruct (detect_cases g) as [(_ & Hd & _)|(Hg & _)]; [|lia]. eauto.
  - eapply Forall_impl; [apply detect_reads_in_bounds|].
    intros rc Hrc. split; [done|]. by apply cell_in_bounds.
Qed.

Lemma detectWinningLines_total_witness :
  is3x3 no_line
  ∧ (∃ ls, detectWinningLines no_line = Done ls)
  ∧ Forall (λ rc, in_bounds rc ∧ is_Some (cell no_line rc)) (detect_reads no_line).
Proof.
  assert (H3 : is3x3 no_line).
  { split; [reflexivity|]. repeat apply Forall_cons_2; by try apply Forall_nil_2. }
  split; [exact H3|]. exact (detectWinningLines_total no_line H3).
Defined.

(** ** Frames and success, compositionally *)

Section Frames.

Context {St : Type} (R : St → St → Prop) `{!PreOrder R}.

Lemma preserves_ret {A} (a : A) : preserves R (ret a).
Proof. intros s. simpl. reflexivity. Qed.

Lemma preserves_throw {A} e : preserves R (@throw St A e).
Proof. intros s. simpl. reflexivity. Qed.

Lemma preserves_gets {A} (f : St → A) : preserves R (gets f).
Proof. intros s. simpl. reflexivity. Qed.

Lemma preserves_lift {A} (o : outcome A) : preserves R (lift o).
Proof. intros s. simpl. reflexivity. Qed.

Lemma preserves_modify (f : St → St) :
  (∀ s, R s (f s)) → preserves R (modify f).
Proof. intros Hf s. apply Hf. Qed.

Lemma preserves_bind {A B} (m : M St A) (k : A → M St B) :
  preserves R m → (∀ a, preserves R (k a)) → preserves R (bind m k).
Proof.
  intros Hm Hk s. unfold bind. specialize (Hm s).
  destruct (m s) as [[a|e] s']; simpl in *; [|done].
  etrans; [exact Hm|apply Hk].
Qed.

Lemma preserves_when (b : bool) (m : M St unit) :
  preserves R m → preserves R (when b m).
Proof. destruct b; [done|]. intros _. apply preserves_ret. Qed.

Lemma preserves_for_up n i (body : nat → M St unit) :
  (∀ j, preserves R (body j)) → preserves R (for_up n i body).
Proof.
  intros Hb. revert i. induction n as [|n IH]; intros i; simpl.
  - apply preserves_ret.
  - apply preserves_bind; [apply Hb|]. intros _. apply IH.
Qed.

Lemma preserves_for_each {A} (xs : list A) (body : A → M St unit) :
  (∀ x, preserves R (body x)) → preserves R (for_each xs body).
Proof.
  intros Hb. induction xs as [|x xs IH]; simpl.
  - apply preserves_ret.
  - apply preserves_bind; [apply Hb|]. intros _. apply IH.
Qed.

Lemma preserves_array_from {A} n (f : M St A) :
  preserves R f → preserves R (array_from n f).
Proof.
  intros Hf. induction n as [|n IH]; simpl.
  - apply preserves_ret.
  - apply preserves_bind; [done|]. intros x.
    apply preserves_bind; [done|]. intros xs. apply preserves_ret.
Qed.

End Frames.

Section Success.

Context {St : Type}.

Lemma succeeds_ret {A} (a : A) : succeeds (@ret St A a).
Proof. intros s. by exists a. Qed.

Lemma succeeds_gets {A} (f : St → A) : succeeds (gets f).
Proof. intros s. by exists (f s). Qed.

Lemma succeeds_modify (f : St → St) : succeeds (modify f).
Proof. intros s. by exists tt. Qed.

Lemma succeeds_bind {A B} (m : M St A) (k : A → M St B) :
  succeeds m → (∀ a, succeeds (k a)) → succeeds (bind m k).
Proof.
  intros Hm Hk s. unfold bind. destruct (Hm s) as [a Ha].
  destruct (m s) as [[a'|e] s']; simpl in *; [|done]. apply Hk.
Qed.

Lemma succeeds_when (b : bool) (m : M St unit) :
  succeeds m → succeeds (when b m).
Proof. destruct b; [done|]. intros _. apply succeeds_ret. Qed.

Lemma succeeds_for_up n i (body : nat → M St unit) :
  (∀ j, i ≤ j < i + n → succeeds (body j)) → succeeds (for_up n i body).
Proof.
  revert i. induction n as [|n IH]; intros i Hb; simpl.
  - apply succeeds_ret.
  - apply succeeds_bind; [apply Hb; lia|]. intros _.
    apply IH. intros j Hj. apply Hb. lia.
Qed.

Lemma succeeds_for_each {A} (xs : list A) (body : A → M St unit) :
  (∀ x, succeeds (body x)) → succeeds (for_each xs body).
Proof.
  intros Hb. induction xs as [|x xs IH]; simpl.
  - apply succeeds_ret.
  - apply succeeds_bind; [apply Hb|]. intros _. apply IH.
Qed.

Lemma succeeds_array_from {A} n (f : M St A) :
  succeeds f → succeeds (array_from n f).
Proof.
  intros Hf. induction n as [|n IH]; simpl.
  - apply succeeds_ret.
  - apply succeeds_bind; [done|]. intros x.
    apply succeeds_bind; [done|]. intros xs. apply succeeds_ret.
Qed.

(** What a computation that returns in a state related by [R] gives. *)
Lemma run_done {A} (R : St → St → Prop) (m : M St A) s :
  succeeds m → preserves R m → ∃ a s', m s = (Done a, s') ∧ R s s'.
Proof.
  intros Hs Hp. destruct (Hs s) as [a Ha]. specialize (Hp s).
  destruct (m s) as [o s']; simpl in *. subst o. by exists a, s'.
Qed.

End Success.

#[global] Instance same_shown_preorder : PreOrder same_shown.
Proof.
  split.
  - by intros w.
  - intros w1 w2 w3 [? ?] [? ?]. unfold same_shown. split; congruence.
Qed.

#[global] Instance draws_le_preorder : PreOrder draws_le.
Proof.
  split.
  - intros w. unfold draws_le. lia.
  - intros w1 w2 w3. unfold draws_le. lia.
Qed.

#[global] Instance same_vars_preorder : PreOrder same_vars.
Proof.
  split.
  - by intros w.
  - intros w1 w2 w3 (? & ? & ? & ? & ?) (? & ? & ? & ? & ?).
    unfold same_vars. repeat split; congruence.
Qed.

(** ** The handlers' helpers *)

Section HelperFacts.

Variable pg : page.
Variable rnd : nat → nat.

Lemma randomSymbol_frame : preserves same_vars (randomSymbol rnd).
Proof. by intros w. Qed.

Lemma randomSymbol_succeeds : succeeds (randomSymbol rnd).
Proof. intros w. by eexists. Qed.

Lemma randomGrid_run (w : world) :
  randomGrid rnd w
  = (Done (drawn_grid rnd (draws w)), set_draws (9 + draws w) w).
Proof. by destruct w. Qed.

Lemma renderGrid_frame (g : grid_t) (transient : bool) :
  preserves same_vars (renderGrid pg rnd g transient).
Proof.
  unfold renderGrid. destruct (has_gridEl pg); simpl; [|apply (preserves_ret same_vars)].
  apply (preserves_bind same_vars); [by apply (preserves_modify same_vars)|]. intros _.
  apply (preserves_for_up same_vars). intros r. apply (preserves_for_up same_vars). intros c.
  apply (preserves_bind same_vars); [apply (preserves_lift same_vars)|]. intros v.
  apply (preserves_bind same_vars).
  { destruct (truthy v); [apply (preserves_ret same_vars)|apply randomSymbol_frame]. }
  intros t. by apply (preserves_modify same_vars).
Qed.

Lemma renderGrid_succeeds (g : grid_t) (transient : bool) :
  3 ≤ length g → succeeds (renderGrid pg rnd g transient).
Proof.
  intros Hg. unfold renderGrid.
  destruct (has_gridEl pg); simpl; [|apply succeeds_ret].
  apply succeeds_bind; [apply succeeds_modify|]. intros _.
  apply succeeds_for_up. intros r Hr. apply succeeds_for_up. intros c _.
  apply succeeds_bind.
  { intros w. unfold lift. simpl. rewrite index2_row by (unfold ROWS in Hr; lia).
    by eexists. }
  intros v. apply succeeds_bind.
  { destruct (truthy v); [apply succeeds_ret|apply randomSymbol_succeeds]. }
  intros t. apply succeeds_modify.
Qed.

Lemma add_winning_frame (idx : nat) (w : world) :
  same_vars w (add_winning idx w).
Proof. unfold add_winning. by case_bool_decide. Qed.

Lemma highlightWinningCells_frame (ls : list line) :
  preserves same_vars (highlightWinningCells pg ls).
Proof.
  unfold highlightWinningCells.
  destruct (has_gridEl pg); simpl; [|apply (preserves_throw same_vars)].
  apply (preserves_bind same_vars); [apply (preserves_gets same_vars)|]. intros n.
  apply (preserves_bind same_vars); [by apply (preserves_modify same_vars)|]. intros _.
  apply (preserves_for_each same_vars). intros l. apply (preserves_for_each same_vars). intros rc.
  apply (preserves_when same_vars), (preserves_modify same_vars), add_winning_frame.
Qed.

Lemma highlightWinningCells_shown (ls : list line) :
  preserves same_shown (highlightWinningCells pg ls).
Proof.
  unfold highlightWinningCells.
  destruct (has_gridEl pg); simpl; [|apply (preserves_throw same_shown)].
  apply (preserves_bind same_shown); [apply (preserves_gets same_shown)|].
  intros n.
  apply (preserves_bind same_shown); [by apply (preserves_modify same_shown)|].
  intros _.
  apply (preserves_for_each same_shown). intros l.
  apply (preserves_for_each same_shown). intros rc.
  apply (preserves_when same_shown), (preserves_modify same_shown).
  intros w. unfold add_winning. by case_bool_decide.
Qed.

Lemma highlightWinningCells_succeeds (ls : list line) :
  has_gridEl pg = true → succeeds (highlightWinningCells pg ls).
Proof.
  intros Hg. unfold highlightWinningCells. rewrite Hg. simpl.
  apply succeeds_bind; [apply succeeds_gets|]. intros n.
  apply succeeds_bind; [apply succeeds_modify|]. intros _.
  apply succeeds_for_each. intros l. apply succeeds_for_each. intros rc.
  apply succeeds_when, succeeds_modify.
Qed.

Lemma highlightWinningCells_throws (ls : list line) (w : world) :
  has_gridEl pg = false →
  highlightWinningCells pg ls w = (Threw "TypeError", w).
Proof. intros Hg. unfold highlightWinningCells. by rewrite Hg. Qed.

Lemma startSpinAnimation_frame :
  preserves same_vars (startSpinAnimation pg rnd).
Proof.
  unfold startSpinAnimation.
  destruct (negb (has_spinBtn pg) || negb (has_gridEl pg)); [apply (preserves_ret same_vars)|].
  apply (preserves_bind same_vars).
  { apply (preserves_array_from same_vars), (preserves_array_from same_vars), randomSymbol_frame. }
  intros g. apply renderGrid_frame.
Qed.

Lemma startSpinAnimation_succeeds : succeeds (startSpinAnimation pg rnd).
Proof.
  unfold startSpinAnimation.
  destruct (negb (has_spinBtn pg) || negb (has_gridEl pg)); [apply succeeds_ret|].
  intros w. unfold bind.
  change (array_from ROWS (array_from COLS (randomSymbol rnd))) with (randomGrid rnd).
  rewrite randomGrid_run. apply renderGrid_succeeds. simpl. lia.
Qed.

Lemma animation_tick_frame (attached : bool) :
  preserves same_vars (animation_tick rnd attached).
Proof.
  unfold animation_tick. apply (preserves_bind same_vars).
  { apply (preserves_array_from same_vars), (preserves_bind same_vars); [apply randomSymbol_frame|].
    intros v. apply (preserves_ret same_vars). }
  intros texts. by apply (preserves_when same_vars), (preserves_modify same_vars).
Qed.

Lemma renderGrid_draws (g : grid_t) (transient : bool) :
  preserves draws_le (renderGrid pg rnd g transient).
Proof.
  unfold renderGrid.
  destruct (has_gridEl pg); simpl; [|apply (preserves_ret draws_le)].
  apply (preserves_bind draws_le); [apply (preserves_modify draws_le); intros []; apply Nat.le_refl|].
  intros _.
  apply (preserves_for_up draws_le). intros r.
  apply (preserves_for_up draws_le). intros c.
  apply (preserves_bind draws_le); [apply (preserves_lift draws_le)|].
  intros v. apply (preserves_bind draws_le).
  { destruct (truthy v); [apply (preserves_ret draws_le)|].
    intros w. unfold draws_le. simpl. lia. }
  intros t. apply (preserves_modify draws_le). intros []. apply Nat.le_refl.
Qed.

Lemma startSpinAnimation_draws :
  preserves draws_le (startSpinAnimation pg rnd).
Proof.
  unfold startSpinAnimation.
  destruct (negb (has_spinBtn pg) || negb (has_gridEl pg));
    [apply (preserves_ret draws_le)|].
  apply (preserves_bind draws_le).
  { apply (preserves_array_from draws_le), (preserves_array_from draws_le).
    intros w. unfold draws_le. simpl. lia. }
  intros g. apply renderGrid_draws.
Qed.

Lemma animation_tick_draws (attached : bool) :
  preserves draws_le (animation_tick rnd attached).
Proof.
  unfold animation_tick. apply (preserves_bind draws_le).
  { apply (preserves_array_from draws_le), (preserves_bind draws_le).
    - intros w. unfold draws_le. simpl. lia.
    - intros v. apply (preserves_ret draws_le). }
  intros texts.
  apply (preserves_when draws_le), (preserves_modify draws_le).
  intros []. apply Nat.le_refl.
Qed.

Lemma updateSpinDisabledState_run (w : world) :
  updateSpinDisabledState pg w
  = (Done tt, if has_spinBtn pg
              then set_disabled (credits w <? SPIN_COST)%Z w else w).
Proof. unfold updateSpinDisabledState. by destruct (has_spinBtn pg). Qed.

Lemma updateCredits_same (immediate : bool) (w : world) :
  updateCredits pg (credits w) immediate w = (Done tt, w).
Proof.
  unfold updateCredits. destruct (has_creditsDisplay pg); simpl; [|done].
  by destruct w.
Qed.

Lemma clearFlash_run (w : world) :
  clearFlash pg w
  = (Done tt, if has_flashContainer pg then set_flash [] w else w).
Proof. unfold clearFlash. by destruct (has_flashContainer pg). Qed.

End HelperFacts.

(** ** The spin handler, case by case *)

Section HandlerFacts.
Variable pg : page.
Variable rnd : nat → nat.

Lemma spinBtn_click_disabled (w : world) :
  spinBtn_disabled w = true → spinBtn_click pg rnd w = (Done false, w).
Proof. intros Hdis. unfold spinBtn_click. rewrite bind_gets, Hdis. done. Qed.

Lemma spinBtn_click_rejected (w : world) :
  spinBtn_disabled w = false → (credits w < SPIN_COST)%Z →
  ∃ w', spinBtn_click pg rnd w = (Done false, w')
    ∧ credits w' = credits w ∧ grid w' = grid w
    ∧ slot_cells w' = slot_cells w ∧ winning_cells w' = winning_cells w
    ∧ draws w' = draws w ∧ pending w' = pending w
    ∧ flash w' = (if has_flashContainer pg then [rejection] else flash w)
    ∧ spinBtn_disabled w' = has_spinBtn pg.
Proof.
  intros Hdis Hc. unfold spinBtn_click.
  rewrite bind_gets, Hdis.
  rewrite (bind_done _ _ _ _ _ (clearFlash_run pg w)).
  rewrite bind_gets.
  replace (credits (if has_flashContainer pg then set_flash [] w else w))
    with (credits w) by (by destruct (has_flashContainer pg)).
  apply Z.ltb_lt in Hc as Hc'. rewrite Hc'.
  unfold addFlash, updateSpinDisabledState, rejection.
  destruct (has_flashContainer pg), (has_spinBtn pg); simpl;
    eexists; (split; [reflexivity|]); simpl; rewrite ?Hc', ?Hdis; done.
Qed.

Lemma spinBtn_click_charged (w : world) :
  spinBtn_disabled w = false → (SPIN_COST ≤ credits w)%Z →
  ∃ w', spinBtn_click pg rnd w = (Done true, w')
    ∧ credits w' = (credits w - SPIN_COST)%Z
    ∧ grid w' = grid w
    ∧ pending w' = S (pending w)
    ∧ spinBtn_disabled w' = false
    ∧ flash w' = (if has_flashContainer pg then [] else flash w)
    ∧ draws w ≤ draws w'.
Proof.
  intros Hdis Hc. unfold spinBtn_click.
  rewrite bind_gets, Hdis.
  rewrite (bind_done _ _ _ _ _ (clearFlash_run pg w)).
  set (w1 := if has_flashContainer pg then _ else _).
  assert (H1 : same_vars (set_flash (flash w1) w) w1
               ∧ (flash w1 = if has_flashContainer pg then [] else flash w)
               ∧ draws w1 = draws w).
  { subst w1. by destruct (has_flashContainer pg), w. }
  destruct H1 as [(Hc1 & Hg1 & Hd1 & _ & Hp1) [Hf1 Hdr1]]. simpl in *.
  rewrite bind_gets, Hc1.
  apply Z.ltb_ge in Hc as Hc'. rewrite Hc'.
  rewrite bind_modify, bind_gets.
  rewrite (bind_done _ _ _ _ _ (updateCredits_same pg _ _)).
  destruct (run_done same_vars (startSpinAnimation pg rnd)
              (set_credits (credits w1 - SPIN_COST) w1)
              (startSpinAnimation_succeeds pg rnd)
              (startSpinAnimation_frame pg rnd))
    as ([] & w3 & E & Hc3 & Hg3 & Hd3 & Hf3 & Hp3).
  pose proof (startSpinAnimation_draws pg rnd
                (set_credits (credits w1 - SPIN_COST) w1)) as Hdr3.
  rewrite E in Hdr3. unfold draws_le in Hdr3.
  rewrite (bind_done _ _ _ _ _ E), bind_modify. simpl in *.
  eexists. split; [reflexivity|]. simpl.
  rewrite Hc3, Hg3, Hd3, Hf3, Hp3. repeat split; try congruence; lia.
Qed.

Lemma detect_drawn (k : nat) :
  detectWinningLines (drawn_grid rnd k)
  = Done (filter (λ l, wins (drawn_grid rnd k) l) LINES).
Proof.
  destruct (detect_cases (drawn_grid rnd k)) as [(_ & Hd & _)|(Hg & _)]; [done|].
  simpl in Hg. lia.
Qed.

Lemma spinBtn_resume_run (w : world) :
  let G := drawn_grid rnd (draws w) in
  let n := line_count G in
  ∃ o w', spinBtn_resume pg rnd w = (o, w')
    ∧ grid w' = G
    ∧ pending w' = pred (pending w)
    ∧ same_shown
        (renderGrid pg rnd G false
           (set_grid G
              (set_draws (9 + draws w) (set_pending (pred (pending w)) w)))).2
        w'
    ∧ (n = 0 ∨ has_gridEl pg = true →
         o = Done tt
         ∧ credits w' = (credits w + payout n)%Z
         ∧ flash w' = (if has_flashContainer pg
                       then flash w ++ [outcome_alert n] else flash w)
         ∧ spinBtn_disabled w'
           = (if has_spinBtn pg then (credits w' <? SPIN_COST)%Z
              else spinBtn_disabled w))
    ∧ (0 < n → has_gridEl pg = false →
         o = Threw "TypeError"
         ∧ credits w' = credits w ∧ flash w' = flash w
         ∧ spinBtn_disabled w' = spinBtn_disabled w).
Proof.
  intros G n. unfold spinBtn_resume.
  rewrite bind_modify.
  rewrite (bind_done _ _ _ _ _ (randomGrid_run rnd _)).
  rewrite bind_modify, bind_gets.
  change (draws (set_pending _ w)) with (draws w). fold G.
  change (grid (set_grid G _)) with G.
  set (w2 := set_grid G _).
  destruct (run_done same_vars (renderGrid pg rnd G false) w2
              (renderGrid_succeeds pg rnd G false ltac:(simpl; lia))
              (renderGrid_frame pg rnd G false))
    as ([] & w3 & E & Hc3 & Hg3 & Hd3 & Hf3 & Hp3).
  rewrite E. change ((Done (), w3).2) with w3.
  rewrite (bind_done _ _ _ _ _ E), bind_gets, Hg3.
  change (grid w2) with G. subst G. rewrite detect_drawn.
  unfold lift at 1. unfold bind at 1.
  fold (line_count (drawn_grid rnd (draws w))). fold n.
  simpl in Hc3, Hd3, Hf3, Hp3, Hg3.
  destruct (decide (n = 0)) as [Hn|Hn].
  - rewrite Hn. rewrite bool_decide_eq_false_2 by lia.
    unfold addFlash, updateSpinDisabledState.
    destruct (has_flashContainer pg), (has_spinBtn pg); simpl;
      eexists _, _; (split; [reflexivity|]); simpl;
      rewrite ?Hc3, ?Hd3, ?Hf3, ?Hp3, ?Hg3, ?Z.add_0_r;
      (split; [done|]); (split; [done|]); (split; [done|]);
      (split; [done|intros ?; lia]).
  - rewrite bool_decide_eq_true_2 by lia.
    destruct (has_gridEl pg) eqn:Hgrid.
    + destruct (run_done same_vars (highlightWinningCells pg
                  (filter (λ l, wins (drawn_grid rnd (draws w)) l) LINES)) w3
                  (highlightWinningCells_succeeds pg _ Hgrid)
                  (highlightWinningCells_frame pg _))
        as ([] & w4 & E4 & Hc4 & Hg4 & Hd4 & Hf4 & Hp4).
      pose proof (highlightWinningCells_shown pg
        (filter (λ l, wins (drawn_grid rnd (draws w)) l) LINES) w3) as Hs4.
      rewrite E4 in Hs4. change ((Done (), w4).2) with w4 in Hs4.
      rewrite bind_assoc, (bind_done _ _ _ _ _ E4).
      rewrite bind_assoc, bind_modify.
      fold (line_count (drawn_grid rnd (draws w))). fold n.
      clearbody n. unfold addFlash, updateSpinDisabledState.
      destruct n as [|[|n']]; [done| |];
        destruct (has_flashContainer pg), (has_spinBtn pg); simpl;
        eexists _, _; (split; [reflexivity|]); simpl;
        rewrite ?Hc4, ?Hd4, ?Hf4, ?Hp4, ?Hg4, ?Hc3, ?Hd3, ?Hf3, ?Hp3, ?Hg3;
        (split; [done|]); (split; [done|]); (split; [exact Hs4|]);
        (split; [done|intros ? ?; done]).
    + rewrite bind_assoc.
      rewrite (bind_threw _ _ _ _ _ (highlightWinningCells_throws pg _ w3 Hgrid)).
      eexists _, _. split; [reflexivity|].
      rewrite Hc3, Hd3, Hf3, Hp3, Hg3.
      split; [done|]. split; [done|]. split; [done|].
      split; [intros [?|?]; [lia|done]|done].
Qed.
Lemma resetBtn_click_run (w : world) :
  ∃ w', resetBtn_click pg rnd w = (Done tt, w')
    ∧ credits w' = 100%Z
    ∧ grid w' = makeEmptyGrid
    ∧ pending w' = pending w
    ∧ spinBtn_disabled w'
      = (if has_spinBtn pg then false else spinBtn_disabled w)
    ∧ flash w'
      = (if has_flashContainer pg
         then [Alert "alert-secondary" "🔄 Game reset."] else flash w).
Proof.
  unfold resetBtn_click. rewrite !bind_modify, bind_gets.
  set (w1 := set_grid _ _).
  destruct (run_done same_vars (renderGrid pg rnd (grid w1) false) w1
              (renderGrid_succeeds pg rnd (grid w1) false ltac:(simpl; lia))
              (renderGrid_frame pg rnd (grid w1) false))
    as ([] & w2 & E & Hc & Hg & Hd & Hf & Hp).
  rewrite (bind_done _ _ _ _ _ E), bind_gets.
  rewrite (bind_done _ _ _ _ _ (updateCredits_same pg _ _)).
  rewrite (bind_done _ _ _ _ _ (clearFlash_run pg _)).
  unfold addFlash, updateSpinDisabledState.
  destruct (has_flashContainer pg), (has_spinBtn pg);
    (eexists; split; [reflexivity|]);
    cbn [credits grid pending spinBtn_disabled flash set_flash set_disabled];
    rewrite ?Hc, ?Hg, ?Hd, ?Hf, ?Hp; done.
Qed.

Lemma init_run (w : world) :
  loaded w →
  ∃ w', init pg rnd w = (Done tt, w')
    ∧ credits w' = 100%Z
    ∧ grid w' = makeEmptyGrid
    ∧ pending w' = 0
    ∧ spinBtn_disabled w'
      = (if has_spinBtn pg then false else spinBtn_disabled w).
Proof.
  intros (Hc0 & Hg0 & Hp0). unfold init. rewrite bind_gets.
  rewrite (bind_done _ _ _ _ _ (updateCredits_same pg _ _)), bind_gets.
  destruct (run_done same_vars (renderGrid pg rnd (grid w) false) w
              (renderGrid_succeeds pg rnd (grid w) false
                 ltac:(rewrite Hg0; simpl; lia))
              (renderGrid_frame pg rnd (grid w) false))
    as ([] & w2 & E & Hc & Hg & Hd & Hf & Hp).
  rewrite (bind_done _ _ _ _ _ E), updateSpinDisabledState_run.
  destruct (has_spinBtn pg);
    (eexists; split; [reflexivity|]);
    cbn [credits grid pending spinBtn_disabled set_disabled];
    rewrite ?Hc, ?Hg, ?Hd, ?Hp, ?Hc0; done.
Qed.

End HandlerFacts.

(** ** Oracles that stay within the alphabet *)

Section FairFacts.

Variable pg : page.
Variable rnd : nat → nat.
Hypothesis rnd_fair : fair rnd.

Lemma sym_symbol (n : nat) : symbol_cell (sym rnd n).
Proof.
  unfold sym, symbol_cell.
  destruct (lookup_lt_is_Some_2 symbols (rnd n) (rnd_fair n)) as [s Hs].
  rewrite Hs. exists s. split; [|done]. by eapply list_elem_of_lookup_2.
Qed.

Lemma symbol_cell_truthy (v : value) : symbol_cell v → truthy v = true.
Proof.
  intros (s & Hs & ->). simpl. apply negb_true_iff, String.eqb_neq.
  intros ->. revert Hs. apply (bool_decide_unpack _). vm_compute. exact I.
Qed.

Lemma sym_truthy (n : nat) : truthy (sym rnd n) = true.
Proof. apply symbol_cell_truthy, sym_symbol. Qed.

Lemma drawn_grid_symbols (k : nat) :
  is3x3 (drawn_grid rnd k)
  ∧ Forall (Forall symbol_cell) (drawn_grid rnd k).
Proof.
  split.
  - split; [done|]. repeat apply Forall_cons_2; by try apply Forall_nil_2.
  - unfold drawn_grid.
    repeat (apply Forall_cons_2 || apply Forall_nil_2 || apply sym_symbol).
Qed.

(** With every cell truthy [renderGrid] shows the grid itself and draws
    nothing. *)
Lemma renderGrid_drawn (k : nat) (transient : bool) (w : world) :
  has_gridEl pg = true →
  renderGrid pg rnd (drawn_grid rnd k) transient w
  = (Done tt,
     set_winning [] (set_cells (text_of <$> concat (drawn_grid rnd k)) w)).
Proof.
  intros Hg. unfold renderGrid. rewrite Hg. simpl.
  unfold for_range, bind, lift. simpl.
  rewrite !sym_truthy. by destruct w.
Qed.

End FairFacts.

(** ** A spin on its own *)

Section SpinFacts.

Variable pg : page.
Variable rnd : nat → nat.

Lemma payout_nonneg (n : nat) : (0 ≤ payout n)%Z.
Proof.
  destruct n as [|[|n]]; simpl;
    unfold SINGLE_LINE_REWARD, MULTI_LINE_REWARD; lia.
Qed.

Lemma ticks_frame (ticks : nat) (w : world) :
  same_vars w (Nat.iter ticks (λ w, (animation_tick rnd true w).2) w).
Proof.
  induction ticks as [|n IH]; [done|].
  rewrite Nat.iter_succ.
  etrans; [exact IH|]. apply (animation_tick_frame rnd true).
Qed.

Lemma ticks_draws (ticks : nat) (w : world) :
  draws w ≤ draws (Nat.iter ticks (λ w, (animation_tick rnd true w).2) w).
Proof.
  induction ticks as [|n IH]; [done|].
  rewrite Nat.iter_succ.
  etrans; [exact IH|]. apply (animation_tick_draws rnd true).
Qed.

(** The state in which the rest of the spin handler starts. *)
Lemma spin_charged (ticks : nat) (w : world) :
  spinBtn_disabled w = false → (SPIN_COST ≤ credits w)%Z →
  ∃ w2, spin pg rnd ticks w = (spinBtn_resume pg rnd w2).2
    ∧ credits w2 = (credits w - SPIN_COST)%Z
    ∧ pending w2 = S (pending w)
    ∧ spinBtn_disabled w2 = false
    ∧ draws w ≤ draws w2.
Proof.
  intros Hdis Hc.
  destruct (spinBtn_click_charged pg rnd w Hdis Hc)
    as (w1 & E & Hc1 & Hg1 & Hp1 & Hd1 & Hf1 & Hdr1).
  unfold spin. rewrite E.
  destruct (has_gridEl pg).
  - eexists. split; [reflexivity|].
    destruct (ticks_frame ticks w1) as (-> & _ & -> & _ & ->).
    repeat split; try done. etrans; [exact Hdr1|apply ticks_draws].
  - by exists w1.
Qed.

Lemma spin_run (ticks : nat) (w : world) :
  spinBtn_disabled w = false → (SPIN_COST ≤ credits w)%Z →
  ∃ k, draws w ≤ k
    ∧ 9 + k ≤ draws (spin pg rnd ticks w)
    ∧ grid (spin pg rnd ticks w) = drawn_grid rnd k
    ∧ pending (spin pg rnd ticks w) = pending w
    ∧ detectWinningLines (grid (spin pg rnd ticks w))
      = Done (filter (λ l, wins (drawn_grid rnd k) l) LINES)
    ∧ (line_count (drawn_grid rnd k) = 0 ∨ has_gridEl pg = true →
         credits (spin pg rnd ticks w)
         = (credits w - SPIN_COST + payout (line_count (drawn_grid rnd k)))%Z)
    ∧ (has_gridEl pg = true → fair rnd →
         slot_cells (spin pg rnd ticks w)
         = text_of <$> concat (drawn_grid rnd k)).
Proof.
  intros Hdis Hc.
  destruct (spin_charged ticks w Hdis Hc) as (w2 & -> & Hc2 & Hp2 & Hd2 & Hdr2).
  destruct (spinBtn_resume_run pg rnd w2)
    as (o & w' & E & Hg & Hp & [Hcells Hdr] & Hwin & _).
  rewrite E. simpl. exists (draws w2).
  rewrite Hg, Hp, Hp2, detect_drawn. repeat split; try done.
  - rewrite Hdr. etrans; [|apply renderGrid_draws]. done.
  - intros H. destruct (Hwin H) as (_ & -> & _). by rewrite Hc2.
  - intros Hgrid Hfair. rewrite Hcells.
    by rewrite (renderGrid_drawn pg rnd Hfair _ _ _ Hgrid).
Qed.

(** Whatever state the rest of the handler starts in, it leaves a grid of
    nine symbols. *)
Lemma spinBtn_resume_symbols (w : world) :
  fair rnd →
  is3x3 (grid (spinBtn_resume pg rnd w).2)
  ∧ Forall (Forall symbol_cell) (grid (spinBtn_resume pg rnd w).2).
Proof.
  intros Hfair.
  destruct (spinBtn_resume_run pg rnd w) as (o & w' & E & Hg & _).
  rewrite E. simpl. rewrite Hg. by apply drawn_grid_symbols.
Qed.

End SpinFacts.

Lemma cycling_fair : fair cycling.
Proof. intros n. unfold cycling. apply Nat.mod_upper_bound. done. Qed.

(** ** Payout and credits of a spin *)

(** The lines the code keeps are the lines that match. *)
Lemma filter_wins_matched (g : grid_t) (l : line) :
  l ∈ filter (λ l, wins g l) LINES ↔ l ∈ LINES ∧ matched g l.
Proof.
  rewrite list_elem_of_filter, Is_true_true. split.
  - intros [Hw Hl]. split; [done|]. by apply wins_matched.
  - intros [Hl Hm]. split; [|done]. by apply wins_matched.
Qed.

(** C2, as the code has it.  A spin that passes the guards (the button is
    enabled and the credits cover the cost), on a page with a grid element,
    adds to the charged credits a reward fixed by the number of winning
    lines of the final grid alone: nothing for none, the single-line
    constant 50 for exactly one, and the flat multi-line constant 100 for
    two or more, however many of the at most eight they are.  The reward is
    never the multi-line constant once per line; from three lines on it is
    less than the single-line constant once per line, and for exactly two
    lines it is equal to it. *)
Theorem reward_by_line_count
    (pg : page) (rnd : nat → nat) (ticks : nat) (w : world) :
  spinBtn_disabled w = false → (SPIN_COST ≤ credits w)%Z →
  has_gridEl pg = true →
  ∃ ls reward,
    detectWinningLines (grid (spin pg rnd ticks w)) = Done ls
    ∧ credits (spin pg rnd ticks w) = (credits w - SPIN_COST + reward)%Z
    ∧ reward = payout (length ls)
    ∧ (length ls = 0 → reward = 0%Z)
    ∧ (length ls = 1 → reward = 50%Z)
    ∧ (2 ≤ length ls → reward = 100%Z)
    ∧ (2 ≤ length ls → (reward < Z.of_nat (length ls) * MULTI_LINE_REWARD)%Z)
    ∧ (3 ≤ length ls → (reward < Z.of_nat (length ls) * SINGLE_LINE_REWARD)%Z)
    ∧ (length ls = 2 → reward = (Z.of_nat (length ls) * SINGLE_LINE_REWARD)%Z)
    ∧ length ls ≤ 8.
Proof.
  intros Hdis Hc Hg.
  destruct (spin_run pg rnd ticks w Hdis Hc) as (k & _ & _ & HG & _ & Hd & Hcr & _).
  exists (filter (λ l, wins (drawn_grid rnd k) l) LINES),
         (payout (line_count (drawn_grid rnd k))).
  split; [done|]. split; [auto|]. split; [done|].
  pose proof (length_filter (λ l, wins (drawn_grid rnd k) l) LINES) as Hlen.
  change (length LINES) with 8 in Hlen. revert Hlen.
  unfold line_count, SINGLE_LINE_REWARD, MULTI_LINE_REWARD.
  destruct (length (filter (λ l, wins (drawn_grid rnd k) l) LINES)) as [|[|n]];
    cbn [payout]; unfold SINGLE_LINE_REWARD, MULTI_LINE_REWARD;
    repeat split; intros; lia.
Qed.

Lemma reward_by_line_count_witness :
  spinBtn_disabled started = false ∧ (SPIN_COST ≤ credits started)%Z
  ∧ has_gridEl full_page = true
  ∧ ∃ ls reward,
      detectWinningLines (grid (spin full_page (λ _, 3) 0 started)) = Done ls
      ∧ credits (spin full_page (λ _, 3) 0 started)
        = (credits started - SPIN_COST + reward)%Z
      ∧ length ls = 8 ∧ reward = 100%Z.
Proof.
  assert (H1 : spinBtn_disabled started = false) by reflexivity.
  assert (H2 : (SPIN_COST ≤ credits started)%Z) by (vm_compute; discriminate).
  assert (H3 : has_gridEl full_page = true) by reflexivity.
  split; [exact H1|]. split; [exact H2|]. split; [exact H3|].
  destruct (reward_by_line_count full_page (λ _, 3) 0 started H1 H2 H3)
    as (ls & reward & Hd & Hcr & Hr & _ & _ & H100 & _).
  exists ls, reward. split; [exact Hd|]. split; [exact Hcr|].
  assert (Hl : length ls = 8).
  { vm_compute in Hd. by injection Hd as <-. }
  split; [exact Hl|]. apply H100. rewrite Hl. lia.
Defined.

(** C2, as stated, fails for exactly two lines.  The first spin of a
    loaded game under the oracle [two_lines] settles on the grid
    [row_and_column]; its winning lines are the top row and the left
    column, and the flat reward of 100 it pays is the single-line constant
    once per line, 50 + 50. *)
Lemma two_lines_pay_the_sum :
  spinBtn_disabled started = false
  ∧ (SPIN_COST ≤ credits started)%Z
  ∧ grid (spin full_page two_lines 0 started) = row_and_column
  ∧ detectWinningLines (grid (spin full_page two_lines 0 started))
    = Done [row_line 0; col_line 0]
  ∧ credits (spin full_page two_lines 0 started)
    = (credits started - SPIN_COST
       + (SINGLE_LINE_REWARD + SINGLE_LINE_REWARD))%Z
  ∧ ¬ never_the_sum started (spin full_page two_lines 0 started).
Proof.
  split; [reflexivity|]. split; [vm_compute; discriminate|].
  split; [vm_compute; reflexivity|]. split; [vm_compute; reflexivity|].
  split; [vm_compute; reflexivity|].
  intros H. apply (H [row_line 0; col_line 0]).
  - vm_compute. reflexivity.
  - simpl. lia.
  - vm_compute. reflexivity.
Qed.



(** C8.  After a spin that passes the guards the grid is 3x3 and every
    cell holds one of the seven symbols, whatever indices within the
    alphabet the draws yield. *)
Theorem spin_grid_symbols
    (pg : page) (rnd : nat → nat) (ticks : nat) (w : world) :
  fair rnd → spinBtn_disabled w = false → (SPIN_COST ≤ credits w)%Z →
  is3x3 (grid (spin pg rnd ticks w))
  ∧ Forall (Forall symbol_cell) (grid (spin pg rnd ticks w))
  ∧ length symbols = 7.
Proof.
  intros Hfair Hdis Hc.
  destruct (spin_charged pg rnd ticks w Hdis Hc) as (w2 & -> & _).
  destruct (spinBtn_resume_symbols pg rnd w2 Hfair) as [H1 H2]. done.
Qed.

Lemma spin_grid_symbols_witness :
  fair cycling ∧ spinBtn_disabled started = false
  ∧ (SPIN_COST ≤ credits started)%Z
  ∧ is3x3 (grid (spin full_page cycling 3 started))
  ∧ Forall (Forall symbol_cell) (grid (spin full_page cycling 3 started)).
Proof.
  assert (H1 : spinBtn_disabled started = false) by reflexivity.
  assert (H2 : (SPIN_COST ≤ credits started)%Z) by (vm_compute; discriminate).
  split; [exact cycling_fair|]. split; [exact H1|]. split; [exact H2|].
  destruct (spin_grid_symbols full_page cycling 3 started cycling_fair H1 H2)
    as (Ha & Hb & _).
  split; [exact Ha|exact Hb].
Defined.

(** C5.  From every state, on every page, the reset handler returns, and
    leaves the credits at 100 and the grid at three rows of three empty
    cells. *)
Theorem reset_restores (pg : page) (rnd : nat → nat) (w : world) :
  ∃ w', resetBtn_click pg rnd w = (Done tt, w')
    ∧ credits w' = 100%Z
    ∧ grid w' = makeEmptyGrid
    ∧ is3x3 (grid w')
    ∧ Forall (Forall (λ v, v = VStr "")) (grid w').
Proof.
  destruct (resetBtn_click_run pg rnd w) as (w' & E & Hc & Hg & _).
  exists w'. rewrite Hg. split; [done|]. split; [done|]. split; [done|].
  split; [split; [done|]|];
    repeat apply Forall_cons_2; by try apply Forall_nil_2.
Qed.


(** ** Events and reachable states *)

Section Reach.

Variable pg : page.
Variable rnd : nat → nat.

Lemma reset_credits (w : world) :
  credits (resetBtn_click pg rnd w).2 = 100%Z.
Proof.
  destruct (resetBtn_click_run pg rnd w) as (w' & E & Hc & _).
  by rewrite E.
Qed.

(** No event takes the credits below zero. *)
Lemma fire_credits (e : event) (w w' : world) :
  (0 ≤ credits w)%Z → fire pg rnd e w = Some w' → (0 ≤ credits w')%Z.
Proof.
  intros Hw. destruct e as [|attached| |]; simpl.
  - destruct (has_spinBtn pg); [|done]. intros [= <-].
    destruct (spinBtn_disabled w) eqn:Hdis.
    { by rewrite spinBtn_click_disabled. }
    destruct (decide (credits w < SPIN_COST)%Z) as [Hc|Hc].
    + destruct (spinBtn_click_rejected pg rnd w Hdis Hc) as (w1 & -> & Hc1 & _).
      simpl. by rewrite Hc1.
    + destruct (spinBtn_click_charged pg rnd w Hdis ltac:(lia))
        as (w1 & -> & Hc1 & _).
      simpl. rewrite Hc1. lia.
  - destruct (has_gridEl pg && bool_decide (0 < pending w)); [|done].
    intros [= <-].
    destruct (animation_tick_frame rnd attached w) as (Hc1 & _).
    by rewrite Hc1.
  - destruct (bool_decide (0 < pending w)); [|done]. intros [= <-].
    destruct (spinBtn_resume_run pg rnd w)
      as (o & w1 & -> & _ & _ & _ & Hwin & Hthrow).
    simpl.
    destruct (decide (line_count (drawn_grid rnd (draws w)) = 0)) as [Hn|Hn].
    { destruct Hwin as (_ & Hc1 & _); [by left|]. rewrite Hc1.
      pose proof (payout_nonneg (line_count (drawn_grid rnd (draws w)))). lia. }
    destruct (has_gridEl pg) eqn:Hg.
    + destruct Hwin as (_ & Hc1 & _); [by right|]. rewrite Hc1.
      pose proof (payout_nonneg (line_count (drawn_grid rnd (draws w)))). lia.
    + destruct Hthrow as (_ & Hc1 & _); [lia|done|by rewrite Hc1].
  - destruct (has_resetBtn pg); [|done]. intros [= <-].
    rewrite reset_credits. done.
Qed.

(** A spin on its own is a run of events. *)
Lemma spin_reachable (ticks : nat) (w : world) :
  has_spinBtn pg = true → reachable pg rnd w →
  reachable pg rnd (spin pg rnd ticks w).
Proof.
  intros Hbtn Hw.
  assert (Hclick : reachable pg rnd (spinBtn_click pg rnd w).2).
  { apply (reach_fire pg rnd w SpinClick _ Hw). unfold fire. by rewrite Hbtn. }
  unfold spin.
  destruct (spinBtn_disabled w) eqn:Hdis.
  { by rewrite spinBtn_click_disabled in * by exact Hdis. }
  destruct (decide (credits w < SPIN_COST)%Z) as [Hc|Hc].
  { destruct (spinBtn_click_rejected pg rnd w Hdis Hc) as (w1 & E & _).
    by rewrite E in *. }
  destruct (spinBtn_click_charged pg rnd w Hdis ltac:(lia))
    as (w1 & E & _ & _ & Hp & _).
  rewrite E in *. change ((Done true, w1).2) with w1 in Hclick.
  set (tick := λ w, (animation_tick rnd true w).2).
  assert (Hticks : ∀ n, has_gridEl pg = true →
            reachable pg rnd (Nat.iter n tick w1)
            ∧ pending (Nat.iter n tick w1) = S (pending w)).
  { intros n Hg. induction n as [|n [IH1 IH2]]; [by split|].
    rewrite Nat.iter_succ. split.
    - apply (reach_fire pg rnd _ (AnimationTick true) _ IH1). unfold fire.
      rewrite Hg, IH2. reflexivity.
    - destruct (animation_tick_frame rnd true (Nat.iter n tick w1))
        as (_ & _ & _ & _ & Hpe). unfold tick at 1. by rewrite Hpe. }
  destruct (has_gridEl pg).
  - destruct (Hticks ticks eq_refl) as [H1 H2].
    apply (reach_fire pg rnd _ AnimationEnd _ H1). unfold fire.
    rewrite H2. reflexivity.
  - apply (reach_fire pg rnd _ AnimationEnd _ Hclick). unfold fire.
    rewrite Hp. reflexivity.
Qed.

Lemma spins_reachable (n ticks : nat) (w : world) :
  has_spinBtn pg = true → reachable pg rnd w →
  reachable pg rnd (Nat.iter n (spin pg rnd ticks) w).
Proof.
  intros Hbtn Hw. induction n as [|n IH]; [done|].
  rewrite Nat.iter_succ. by apply spin_reachable.
Qed.

End Reach.

(** C7.  In every state the game can reach from its start, through any
    sequence of clicks on either button, ticks and ends of animations, in
    any order, the credits are an integer that is not negative. *)
Theorem credits_nonneg (pg : page) (rnd : nat → nat) (w : world) :
  reachable pg rnd w → (0 ≤ credits w)%Z.
Proof.
  induction 1 as [w0 Hw0|w e w' _ IH Hfire].
  - destruct (init_run pg rnd w0 Hw0) as (w' & E & Hc & _).
    rewrite E. simpl. rewrite Hc. done.
  - by eapply fire_credits.
Qed.

Lemma started_reachable : reachable full_page cycling started.
Proof. apply reach_init. done. Qed.

Lemma credits_nonneg_witness :
  reachable full_page cycling broke ∧ (0 ≤ credits broke)%Z.
Proof.
  assert (H : reachable full_page cycling broke).
  { apply spins_reachable; [reflexivity|exact started_reachable]. }
  split; [exact H|]. exact (credits_nonneg full_page cycling broke H).
Defined.

(** ** The button is disabled as soon as the credits run out *)

Section Settled.

Variable pg : page.
Variable rnd : nat → nat.
Hypothesis has_button : has_spinBtn pg = true.
Hypothesis has_grid : has_gridEl pg = true.

(** Between the actions of a game played one action at a time the button
    is disabled exactly when the credits do not cover a spin. *)
Lemma settled_disabled (w : world) :
  settled pg rnd w → spinBtn_disabled w = (credits w <? SPIN_COST)%Z.
Proof.
  induction 1 as [w0 Hw0|ticks w _ IH|w _ IH].
  - destruct (init_run pg rnd w0 Hw0) as (w' & E & Hc & _ & _ & Hd).
    rewrite E. simpl. rewrite Hd, Hc, has_button. done.
  - destruct (spinBtn_disabled w) eqn:Hdis.
    { unfold spin. rewrite spinBtn_click_disabled by done.
      by rewrite Hdis. }
    symmetry in IH. apply Z.ltb_ge in IH.
    destruct (spin_charged pg rnd ticks w Hdis IH) as (w2 & -> & _).
    destruct (spinBtn_resume_run pg rnd w2)
      as (o & w' & E & _ & _ & _ & Hwin & _).
    rewrite E. simpl.
    destruct Hwin as (_ & _ & _ & Hd); [by right|].
    by rewrite Hd, has_button.
  - destruct (resetBtn_click_run pg rnd w) as (w' & E & Hc & _ & _ & Hd & _).
    rewrite E. simpl. rewrite Hd, Hc, has_button. done.
Qed.

(** So in such a game a click without the credits for a spin finds the
    button disabled: it changes nothing and shows nothing. *)
Lemma settled_click_ignored (w : world) :
  settled pg rnd w → (credits w < SPIN_COST)%Z →
  spinBtn_click pg rnd w = (Done false, w).
Proof.
  intros Hw Hc. apply spinBtn_click_disabled.
  rewrite (settled_disabled w Hw). by apply Z.ltb_lt.
Qed.

End Settled.

(** C3, as the code has it.  A click on the spin button with fewer credits
    than the cost of 10 returns without suspending: credits, grid and the
    cells shown are unchanged, nothing is drawn and no evaluation is
    pending.  If the button is disabled the click changes nothing at all
    and shows no notice; if it is enabled, and the page has a flash
    container, the rejection is shown. *)
Theorem spin_without_credits (pg : page) (rnd : nat → nat) (w : world) :
  (credits w < SPIN_COST)%Z →
  ∃ w', spinBtn_click pg rnd w = (Done false, w')
    ∧ credits w' = credits w ∧ grid w' = grid w
    ∧ slot_cells w' = slot_cells w
    ∧ draws w' = draws w ∧ pending w' = pending w
    ∧ (spinBtn_disabled w = true → w' = w)
    ∧ (spinBtn_disabled w = false → has_flashContainer pg = true →
         flash w' = [rejection]).
Proof.
  intros Hc. destruct (spinBtn_disabled w) eqn:Hdis.
  - exists w. rewrite spinBtn_click_disabled by done. repeat split; done.
  - destruct (spinBtn_click_rejected pg rnd w Hdis Hc)
      as (w' & E & Hc' & Hg & Hs & _ & Hdr & Hp & Hf & _).
    exists w'. repeat split; try done. intros _ Hfc. by rewrite Hf, Hfc.
Qed.

(** The rejection can be seen: with credits for one last spin, a second
    click while that spin is still animating finds the credits spent and
    the button not yet disabled. *)
Lemma mid_spin_reachable : reachable full_page cycling mid_spin.
Proof.
  apply (reach_fire full_page cycling last_credits SpinClick).
  - apply spins_reachable; [reflexivity|exact started_reachable].
  - unfold mid_spin, fire. reflexivity.
Qed.

Lemma spin_without_credits_witness :
  (credits mid_spin < SPIN_COST)%Z
  ∧ spinBtn_disabled mid_spin = false
  ∧ has_flashContainer full_page = true
  ∧ flash (spinBtn_click full_page cycling mid_spin).2 = [rejection].
Proof.
  assert (H1 : (credits mid_spin < SPIN_COST)%Z) by (vm_compute; reflexivity).
  assert (H2 : spinBtn_disabled mid_spin = false) by (vm_compute; reflexivity).
  split; [exact H1|]. split; [exact H2|]. split; [reflexivity|].
  destruct (spin_without_credits full_page cycling mid_spin H1)
    as (w' & E & _ & _ & _ & _ & _ & _ & Hf).
  rewrite E. exact (Hf H2 eq_refl).
Defined.

(** C3, as stated, fails.  Ten spins that win nothing, each ended before
    the next click, take a loaded game to no credits at all; the tenth
    leaves the button disabled.  A click then is ignored: the message of
    the last spin stays and no rejection is shown. *)
Lemma broke_not_notified :
  settled full_page cycling broke
  ∧ reachable full_page cycling broke
  ∧ (credits broke < SPIN_COST)%Z
  ∧ spinBtn_click full_page cycling broke = (Done false, broke)
  ∧ flash broke = [outcome_alert 0]
  ∧ ¬ rejected_with_notice full_page cycling broke.
Proof.
  split.
  { unfold broke. do 10 (rewrite Nat.iter_succ; apply settled_spin).
    apply settled_init. done. }
  split; [apply spins_reachable; [reflexivity|exact started_reachable]|].
  split; [vm_compute; reflexivity|].
  split; [vm_compute; reflexivity|].
  split; [vm_compute; reflexivity|].
  intros (_ & _ & _ & _ & Hin). revert Hin.
  apply (bool_decide_unpack _). vm_compute. exact I.
Qed.


(** ** Further facts about the sample states *)

Lemma spins_settled (pg : page) (rnd : nat → nat) (n ticks : nat) (w : world) :
  settled pg rnd w → settled pg rnd (Nat.iter n (spin pg rnd ticks) w).
Proof.
  intros Hw. induction n as [|n IH]; [done|].
  rewrite Nat.iter_succ. by apply settled_spin.
Qed.

Lemma started_settled : settled full_page cycling started.
Proof. apply settled_init. done. Qed.

Lemma broke_settled : settled full_page cycling broke.
Proof. apply spins_settled, started_settled. Qed.

Lemma broke_reachable : reachable full_page cycling broke.
Proof. apply spins_reachable; [reflexivity|exact started_reachable]. Qed.

Lemma broke_credits : credits broke = 0%Z.
Proof. vm_compute. reflexivity. Qed.

Lemma mid_spin_pending : 0 < pending mid_spin.
Proof. vm_compute. lia. Qed.

(** ** [detectWinningLines] on grids of any shape *)

Lemma detect_filter (g : grid_t) :
  3 ≤ length g →
  detectWinningLines g = Done (filter (λ l, wins g l) LINES).
Proof.
  intros Hg. destruct (detect_cases g) as [(_ & Hd & _)|(Hg' & _)]; [done|lia].
Qed.

(** X1.  [detectWinningLines] needs three rows and nothing else: on a grid
    of at least three rows, whatever their lengths, it returns; on a grid
    of fewer it throws a TypeError, and the read that throws is the read of
    the first row that is missing, at column 0. *)
Theorem detectWinningLines_needs_three_rows (g : grid_t) :
  (3 ≤ length g ∧ ∃ ls, detectWinningLines g = Done ls)
  ∨ (length g < 3 ∧ detectWinningLines g = Threw "TypeError"
     ∧ last (detect_reads g) = Some (length g, 0)).
Proof.
  destruct (detect_cases g) as [(Hg & Hd & _)|(Hg & Hd & _ & Hr)].
  - left. eauto.
  - right. split; [done|]. split; [done|]. rewrite Hr. apply last_snoc.
Qed.

(** X2.  On a grid of at least three rows of any lengths the lines returned
    are exactly the fixed lines whose three cells exist and hold one
    non-empty string: a line that runs over a missing cell is never
    returned (the [undefined] read there is either falsy or differs from a
    string), and no read throws. *)
Theorem detectWinningLines_ragged (g : grid_t) :
  3 ≤ length g →
  ∃ ls, detectWinningLines g = Done ls
    ∧ (∀ l, l ∈ ls ↔ l ∈ LINES ∧ matched g l)
    ∧ (∀ l rc, rc ∈ l → cell g rc = None → l ∉ ls).
Proof.
  intros Hg. exists (filter (λ l, wins g l) LINES).
  split; [by apply detect_filter|]. split; [apply filter_wins_matched|].
  intros l rc Hrc Hnone [_ (s & _ & Hs)]%filter_wins_matched.
  rewrite (Hs rc Hrc) in Hnone. done.
Qed.

Lemma detectWinningLines_ragged_witness :
  3 ≤ length ragged
  ∧ ∃ ls, detectWinningLines ragged = Done ls
      ∧ (row_line 0 ∉ ls) ∧ row_line 1 ∈ ls ∧ col_line 0 ∈ ls.
Proof.
  assert (H : 3 ≤ length ragged) by (simpl; lia).
  split; [exact H|].
  destruct (detectWinningLines_ragged ragged H) as (ls & Hd & Hiff & Hnone).
  exists ls. split; [exact Hd|]. split; [|split].
  - apply (Hnone (row_line 0) (0, 2)); [|reflexivity].
    apply (bool_decide_unpack _). vm_compute. exact I.
  - apply Hiff. split; [apply row_line_LINES; lia|].
    exists "🍒". split; [done|]. intros rc. unfold row_line.
    rewrite !elem_of_cons, elem_of_nil. intros [->|[->|[->|[]]]]; reflexivity.
  - apply Hiff. split; [apply col_line_LINES; lia|].
    exists "🍒". split; [done|]. intros rc. unfold col_line.
    rewrite !elem_of_cons, elem_of_nil. intros [->|[->|[->|[]]]]; reflexivity.
Defined.

Lemma filter_wins_ext (g g' : grid_t) (ls : list line) :
  Forall (λ l, wins g l = wins g' l) ls →
  filter (λ l, wins g l) ls = filter (λ l, wins g' l) ls.
Proof.
  induction 1 as [|l ls Hl _ IH]; [done|].
  rewrite !filter_cons, Hl, IH. done.
Qed.

Lemma wins_ext (g g' : grid_t) (l : line) :
  l ∈ LINES → (∀ rc, in_bounds rc → cell g rc = cell g' rc) →
  wins g l = wins g' l.
Proof.
  intros (a & b & c & -> & Ha & Hb & Hc)%LINES_triples Hcell.
  unfold wins, wins3, at_. by rewrite (Hcell a Ha), (Hcell b Hb), (Hcell c Hc).
Qed.

(** X3.  The result depends on the top-left 3x3 block only: two grids of at
    least three rows that agree on the nine cells of rows 0-2 and columns
    0-2 (present or missing alike) give the same result, whatever further
    rows and cells they hold. *)
Theorem detectWinningLines_top_left_block (g g' : grid_t) :
  3 ≤ length g → 3 ≤ length g' →
  (∀ rc, in_bounds rc → cell g rc = cell g' rc) →
  detectWinningLines g = detectWinningLines g'.
Proof.
  intros Hg Hg' Hcell. rewrite !detect_filter by done. f_equal.
  apply filter_wins_ext, Forall_forall. intros l Hl.
  by apply wins_ext.
Qed.

Lemma detectWinningLines_top_left_block_witness :
  3 ≤ length ragged ∧ 3 ≤ length (ragged ++ [[VStr "🔔"]])
  ∧ detectWinningLines ragged = detectWinningLines (ragged ++ [[VStr "🔔"]]).
Proof.
  assert (H1 : 3 ≤ length ragged) by (simpl; lia).
  assert (H2 : 3 ≤ length (ragged ++ [[VStr "🔔"]])) by (simpl; lia).
  split; [exact H1|]. split; [exact H2|].
  apply (detectWinningLines_top_left_block _ _ H1 H2).
  intros [r c] [Hr Hc]. simpl in Hr, Hc.
  assert (r = 0 ∨ r = 1 ∨ r = 2) as [->|[->| ->]] by lia; reflexivity.
Defined.

Lemma trace3_length (g : grid_t) (a b c : coord) :
  1 ≤ length (trace3 g a b c) ≤ 5.
Proof.
  unfold trace3.
  destruct (truthy (at_ g a)), (strict_eq (at_ g a) (at_ g b)); simpl; lia.
Qed.

Lemma trace_length (g : grid_t) (ls : list line) :
  ls ⊆ LINES →
  length ls ≤ length (concat (map (trace_of g) ls)) ≤ 5 * length ls.
Proof.
  induction ls as [|l ls IH]; intros Hls; [simpl; lia|].
  destruct (LINES_triples l) as (a & b & c & -> & _); [apply Hls; left|].
  cbn [map concat trace_of]. rewrite length_app, !length_cons.
  pose proof (trace3_length g a b c).
  assert (Hsub : ls ⊆ LINES) by (intros x Hx; apply Hls; by right).
  specialize (IH Hsub). lia.
Qed.

(** X4.  One call reads the grid at most 40 times (eight lines, at most five
    reads each), and at least 8 times when the grid has three rows: every
    line is examined, none is skipped. *)
Theorem detectWinningLines_reads_bounded (g : grid_t) :
  length (detect_reads g) ≤ 40
  ∧ (length g < 3 ∨ 8 ≤ length (detect_reads g)).
Proof.
  destruct (detect_cases g) as [(Hg & _ & _ & ->)|(Hg & _ & _ & ->)].
  - pose proof (trace_length g LINES ltac:(done)) as H.
    change (length LINES) with 8 in H. split; [lia|right; lia].
  - split; [|by left].
    rewrite length_app, length_cons, length_nil.
    pose proof (trace_length g (take (length g) LINES)) as H.
    rewrite length_take in H. change (length LINES) with 8 in H.
    assert (Hsub : take (length g) LINES ⊆ LINES).
    { intros x Hx. eapply elem_of_sublist; [done|apply sublist_take]. }
    specialize (H Hsub). lia.
Qed.

(** ** Seven lines force the eighth *)

Lemma wins3_true (g : grid_t) (a b c : coord) :
  wins3 g a b c = true →
  truthy (at_ g a) = true ∧ at_ g a = at_ g b ∧ at_ g b = at_ g c.
Proof.
  unfold wins3, strict_eq.
  rewrite !andb_true_iff, !bool_decide_eq_true. tauto.
Qed.

Lemma wins3_false (g : grid_t) (a b c : coord) :
  wins3 g a b c = false →
  truthy (at_ g a) = true → at_ g a = at_ g b → at_ g b = at_ g c → False.
Proof.
  unfold wins3, strict_eq. intros H Ht Hab Hbc.
  rewrite Ht, !bool_decide_eq_true_2 in H by done. done.
Qed.

Lemma uniform_wins (g : grid_t) (l : line) :
  uniform g → l ∈ LINES → wins g l = true.
Proof.
  intros (s & Hs & Hall) Hl. apply wins_matched; [done|].
  exists s. split; [done|]. intros rc Hrc. apply Hall.
  destruct (LINES_triples l Hl) as (a & b & c & -> & Ha & Hb & Hc).
  rewrite !elem_of_cons, elem_of_nil in Hrc.
  by destruct Hrc as [->|[->|[->|[]]]].
Qed.

Lemma rows_win_uniform (g : grid_t) :
  wins g (row_line 0) = true → wins g (row_line 1) = true →
  wins g (row_line 2) = true → wins g (col_line 0) = true → uniform g.
Proof.
  unfold wins, row_line, col_line.
  intros (Ht & H01 & H02)%wins3_true (_ & H11 & H12)%wins3_true
         (_ & H21 & H22)%wins3_true (_ & Hc1 & Hc2)%wins3_true.
  apply truthy_VStr in Ht as (s & Hs & Hv).
  exists s. split; [done|]. intros [r c] [Hr Hc]. simpl in Hr, Hc.
  apply at_VStr.
  assert (r = 0 ∨ r = 1 ∨ r = 2) as [->|[->| ->]] by lia;
    assert (c = 0 ∨ c = 1 ∨ c = 2) as [->|[->| ->]] by lia; congruence.
Qed.

Lemma cols_win_uniform (g : grid_t) :
  wins g (col_line 0) = true → wins g (col_line 1) = true →
  wins g (col_line 2) = true → wins g (row_line 0) = true → uniform g.
Proof.
  unfold wins, row_line, col_line.
  intros (Ht & H01 & H02)%wins3_true (_ & H11 & H12)%wins3_true
         (_ & H21 & H22)%wins3_true (_ & Hc1 & Hc2)%wins3_true.
  apply truthy_VStr in Ht as (s & Hs & Hv).
  exists s. split; [done|]. intros [r c] [Hr Hc]. simpl in Hr, Hc.
  apply at_VStr.
  assert (r = 0 ∨ r = 1 ∨ r = 2) as [->|[->| ->]] by lia;
    assert (c = 0 ∨ c = 1 ∨ c = 2) as [->|[->| ->]] by lia; congruence.
Qed.

(** With at most one line missing, either all rows or all columns win,
    together with a line across them. *)
Lemma seven_uniform (g : grid_t) :
  7 ≤ length (filter (λ l, wins g l) LINES) → uniform g.
Proof.
  unfold LINES. rewrite !filter_cons, filter_nil.
  destruct (wins g (row_line 0)) eqn:R0, (wins g (row_line 1)) eqn:R1,
    (wins g (row_line 2)) eqn:R2, (wins g (col_line 0)) eqn:C0,
    (wins g (col_line 1)) eqn:C1, (wins g (col_line 2)) eqn:C2,
    (wins g diag_main) eqn:D1, (wins g diag_anti) eqn:D2;
    simpl; intros H; try lia;
    first [ by apply rows_win_uniform | by apply cols_win_uniform | idtac ].
  - revert C1 C2 R0 R1 R2. unfold wins, row_line, col_line.
    intros (Ht & H11 & H12)%wins3_true (_ & H21 & H22)%wins3_true
           (_ & Ha1 & Ha2)%wins3_true (_ & Hb1 & Hb2)%wins3_true
           (_ & Hc1 & Hc2)%wins3_true.
    exfalso. revert C0. unfold wins, col_line. intros C0.
    apply (wins3_false _ _ _ _ C0); congruence.
  - revert R1 R2 C0 C1 C2. unfold wins, row_line, col_line.
    intros (Ht & H11 & H12)%wins3_true (_ & H21 & H22)%wins3_true
           (_ & Ha1 & Ha2)%wins3_true (_ & Hb1 & Hb2)%wins3_true
           (_ & Hc1 & Hc2)%wins3_true.
    exfalso. revert R0. unfold wins, row_line. intros R0.
    apply (wins3_false _ _ _ _ R0); congruence.
Qed.

(** X5.  The number of winning lines is never seven, and it is eight exactly
    when the nine cells hold one and the same non-empty string: seven
    winning lines force the eighth. *)
Theorem seven_lines_never (g : grid_t) :
  3 ≤ length g →
  ∃ ls, detectWinningLines g = Done ls
    ∧ length ls ≠ 7
    ∧ (length ls = 8 ↔ uniform g).
Proof.
  intros Hg. exists (filter (λ l, wins g l) LINES).
  destruct (detect_cases g) as [(_ & Hd & _)|(Hg' & _)]; [|lia].
  split; [done|].
  assert (Hall : uniform g → length (filter (λ l, wins g l) LINES) = 8).
  { intros Hu. unfold LINES. rewrite !filter_cons, filter_nil.
    rewrite !(uniform_wins g _ Hu)
      by (apply (bool_decide_unpack _); vm_compute; exact I).
    reflexivity. }
  split.
  - intros H7. pose proof (seven_uniform g ltac:(lia)) as Hu.
    specialize (Hall Hu). lia.
  - split; [|done]. intros H8. apply seven_uniform. lia.
Qed.

Lemma seven_lines_never_witness :
  3 ≤ length all_bells
  ∧ ∃ ls, detectWinningLines all_bells = Done ls
      ∧ length ls ≠ 7 ∧ (length ls = 8 ↔ uniform all_bells).
Proof.
  assert (H : 3 ≤ length all_bells) by (simpl; lia).
  split; [exact H|]. exact (seven_lines_never all_bells H).
Defined.

(** ** [renderGrid], cell by cell *)

Section Render.

Variable pg : page.

Variable rnd : nat → nat.

Hypothesis has_grid : has_gridEl pg = true.

Lemma render_step (g : grid_t) (r c : nat) (w : world) :
  r < length g →
  render_body rnd g r c w = (Done tt, render_cell rnd g w (r, c)).
Proof.
  intros Hr. unfold render_body, bind at 1, lift. rewrite index2_row by done.
  unfold render_cell. by destruct (truthy (at_ g (r, c))).
Qed.

Lemma render_step_no_row (g : grid_t) (r c : nat) (w : world) :
  length g ≤ r → render_body rnd g r c w = (Threw "TypeError", w).
Proof.
  intros Hr. unfold render_body, bind at 1, lift. by rewrite index2_no_row.
Qed.

Lemma renderGrid_rows (g : grid_t) (transient : bool) (w : world) :
  renderGrid pg rnd g transient w
  = ((render_body rnd g 0 0 ;; render_body rnd g 0 1 ;;
      render_body rnd g 0 2 ;; ret tt) ;;
     (render_body rnd g 1 0 ;; render_body rnd g 1 1 ;;
      render_body rnd g 1 2 ;; ret tt) ;;
     (render_body rnd g 2 0 ;; render_body rnd g 2 1 ;;
      render_body rnd g 2 2 ;; ret tt) ;;
     ret tt) (set_winning [] (set_cells [] w)).
Proof. unfold renderGrid. rewrite has_grid. reflexivity. Qed.

Ltac render_cells :=
  repeat first
    [ rewrite bind_assoc
    | erewrite bind_done by (apply render_step; simpl; lia)
    | progress change (bind (ret tt) ?k ?w) with (k tt w); cbv beta ].

Lemma renderGrid_fold (g : grid_t) (transient : bool) (w : world) :
  3 ≤ length g →
  renderGrid pg rnd g transient w
  = (Done tt, foldl (render_cell rnd g) (set_winning [] (set_cells [] w)) cells9).
Proof.
  intros Hg. rewrite renderGrid_rows. render_cells.
  unfold cells9. cbn [foldl]. reflexivity.
Qed.

(** With a row missing the rows before it are rendered, three cells each,
    and the read of the missing row throws. *)
Lemma renderGrid_short (g : grid_t) (transient : bool) (w : world) :
  length g < 3 →
  renderGrid pg rnd g transient w
  = (Threw "TypeError",
     foldl (render_cell rnd g) (set_winning [] (set_cells [] w))
       (take (3 * length g) cells9)).
Proof.
  intros Hg. rewrite renderGrid_rows.
  destruct g as [|r0 [|r1 [|r2 g]]]; simpl in Hg; [| | |lia].
  all: render_cells;
    erewrite bind_threw by (apply render_step_no_row; simpl; lia);
    unfold cells9; cbn [foldl take length Nat.mul Nat.add]; reflexivity.
Qed.

Lemma render_fold_frame (g : grid_t) (cs : list coord) (w : world) :
  same_vars w (foldl (render_cell rnd g) w cs)
  ∧ winning_cells (foldl (render_cell rnd g) w cs) = winning_cells w.
Proof.
  revert w. induction cs as [|rc cs IH]; intros w; [done|].
  cbn [foldl]. destruct (IH (render_cell rnd g w rc)) as [Hv Hw].
  assert (H1 : same_vars w (render_cell rnd g w rc)
               ∧ winning_cells (render_cell rnd g w rc) = winning_cells w).
  { unfold render_cell. by destruct (truthy (at_ g rc)). }
  destruct H1 as [H1 H2]. split; [by etrans|congruence].
Qed.

Lemma render_fold_length (g : grid_t) (cs : list coord) (w : world) :
  length (slot_cells (foldl (render_cell rnd g) w cs))
  = length (slot_cells w) + length cs.
Proof.
  revert w. induction cs as [|rc cs IH]; intros w; [simpl; lia|].
  cbn [foldl]. rewrite IH. unfold render_cell.
  destruct (truthy (at_ g rc)); cbn [slot_cells set_cells set_draws];
    rewrite length_app; simpl; lia.
Qed.

Lemma render_fold_draws (g : grid_t) (cs : list coord) (w : world) :
  draws (foldl (render_cell rnd g) w cs)
  = draws w + length (filter (blank g) cs).
Proof.
  revert w. induction cs as [|rc cs IH]; intros w; [simpl; lia|].
  cbn [foldl]. rewrite IH, filter_cons. unfold render_cell.
  destruct (decide (blank g rc)) as [Hb|Hb]; unfold blank in Hb.
  - rewrite Hb. simpl. lia.
  - apply not_false_iff_true in Hb. rewrite Hb. simpl. lia.
Qed.

Lemma render_fold_texts (g : grid_t) (cs : list coord) (w : world) :
  fair rnd →
  ∃ ts, slot_cells (foldl (render_cell rnd g) w cs) = slot_cells w ++ ts
      ∧ Forall2 (shows g) cs ts.
Proof.
  intros Hfair. revert w. induction cs as [|rc cs IH]; intros w.
  { exists []. by rewrite app_nil_r. }
  cbn [foldl]. destruct (IH (render_cell rnd g w rc)) as (ts & -> & Hts).
  assert (Hcell : ∃ t, slot_cells (render_cell rnd g w rc) = slot_cells w ++ [t]
                     ∧ shows g rc t).
  { unfold render_cell, shows. destruct (truthy (at_ g rc)) eqn:Ht.
    - destruct (at_ g rc) as [|s]; [done|]. by exists s.
    - destruct (sym_symbol rnd Hfair (draws w)) as (s & Hs & Hv).
      exists s. rewrite Hv. done. }
  destruct Hcell as (t & -> & Ht). exists (t :: ts).
  rewrite <- app_assoc. split; [done|]. by constructor.
Qed.

Lemma shows_not_empty (g : grid_t) (rc : coord) (t : string) :
  shows g rc t → t ≠ "".
Proof.
  unfold shows. destruct (truthy (at_ g rc)) eqn:Ht.
  - intros Hv. rewrite <- Hv in Ht. simpl in Ht.
    by apply negb_true_iff, String.eqb_neq in Ht.
  - intros Hin ->. revert Hin. apply (bool_decide_unpack _). vm_compute. exact I.
Qed.

End Render.

(** X6.  On a page with a grid element [renderGrid] of a grid of at least
    three rows returns, replaces the cells shown by nine new ones, none of
    them highlighted, draws one symbol for each blank cell of the grid and
    no other, and leaves credits, grid, button, messages and the count of
    running spins alone. *)
Theorem renderGrid_nine_cells
    (pg : page) (rnd : nat → nat) (g : grid_t) (transient : bool) (w : world) :
  has_gridEl pg = true → 3 ≤ length g →
  ∃ w', renderGrid pg rnd g transient w = (Done tt, w')
    ∧ length (slot_cells w') = 9
    ∧ winning_cells w' = []
    ∧ draws w' = draws w + length (filter (blank g) cells9)
    ∧ same_vars w w'.
Proof.
  intros Hp Hg. eexists. split; [by apply renderGrid_fold|].
  rewrite render_fold_length, render_fold_draws.
  destruct (render_fold_frame rnd g cells9 (set_winning [] (set_cells [] w)))
    as [Hv Hw].
  rewrite Hw.
  split; [done|]. split; [done|]. split; [done|].
  etrans; [|exact Hv]. done.
Qed.

Lemma renderGrid_nine_cells_witness :
  has_gridEl full_page = true ∧ 3 ≤ length row_only
  ∧ ∃ w', renderGrid full_page cycling row_only false fresh = (Done tt, w')
      ∧ length (slot_cells w') = 9.
Proof.
  assert (H1 : has_gridEl full_page = true) by reflexivity.
  assert (H2 : 3 ≤ length row_only) by (simpl; lia).
  split; [exact H1|]. split; [exact H2|].
  destruct (renderGrid_nine_cells full_page cycling row_only false fresh H1 H2)
    as (w' & E & Hn & _).
  exists w'. split; [exact E|exact Hn].
Defined.

(** X7.  With draws that stay within the alphabet, the nine cells
    [renderGrid] shows are, in row-major order, the grid's own strings
    where the grid has one, and one of the seven symbols where it has an
    empty string or nothing; so no cell shown is empty. *)
Theorem renderGrid_never_blank
    (pg : page) (rnd : nat → nat) (g : grid_t) (transient : bool) (w : world) :
  has_gridEl pg = true → fair rnd → 3 ≤ length g →
  Forall2 (shows g) cells9 (slot_cells (renderGrid pg rnd g transient w).2)
  ∧ Forall (λ t, t ≠ "") (slot_cells (renderGrid pg rnd g transient w).2).
Proof.
  intros Hp Hfair Hg. rewrite renderGrid_fold by done. cbn [snd].
  destruct (render_fold_texts rnd g cells9 (set_winning [] (set_cells [] w)) Hfair)
    as (ts & -> & Hts).
  cbn [slot_cells set_winning set_cells app]. split; [done|].
  clear -Hts. induction Hts as [|rc t cs ts Hs _ IH]; constructor; [|done].
  by eapply shows_not_empty.
Qed.

Lemma renderGrid_never_blank_witness :
  has_gridEl full_page = true ∧ fair cycling ∧ 3 ≤ length makeEmptyGrid
  ∧ Forall (λ t, t ≠ "")
      (slot_cells (renderGrid full_page cycling makeEmptyGrid false fresh).2).
Proof.
  assert (H1 : has_gridEl full_page = true) by reflexivity.
  assert (H2 : 3 ≤ length makeEmptyGrid) by (unfold makeEmptyGrid; simpl; lia).
  split; [exact H1|]. split; [exact cycling_fair|]. split; [exact H2|].
  exact (proj2 (renderGrid_never_blank full_page cycling makeEmptyGrid false
                  fresh H1 cycling_fair H2)).
Defined.

(** X8.  [renderGrid] of a grid of fewer than three rows: without a grid
    element it returns at once and changes nothing; with one it empties the
    page, shows the rows that exist, three cells each, and throws a
    TypeError at the first cell of the missing row, credits, grid, button
    and messages untouched. *)
Theorem renderGrid_missing_row
    (pg : page) (rnd : nat → nat) (g : grid_t) (transient : bool) (w : world) :
  length g < 3 →
  if has_gridEl pg
  then ∃ w', renderGrid pg rnd g transient w = (Threw "TypeError", w')
         ∧ length (slot_cells w') = 3 * length g
         ∧ same_vars w w'
  else renderGrid pg rnd g transient w = (Done tt, w).
Proof.
  intros Hg. destruct (has_gridEl pg) eqn:Hp.
  - eexists. split; [by apply renderGrid_short|].
    rewrite render_fold_length, length_take.
    destruct (render_fold_frame rnd g (take (3 * length g) cells9)
                (set_winning [] (set_cells [] w))) as [Hv _].
    split; [simpl; lia|]. etrans; [|exact Hv]. done.
  - unfold renderGrid. by rewrite Hp.
Qed.

Lemma renderGrid_missing_row_witness :
  length [[VStr "🍒"; VStr "🍒"; VStr "🍒"]] < 3
  ∧ ∃ w', renderGrid full_page cycling [[VStr "🍒"; VStr "🍒"; VStr "🍒"]]
            false fresh = (Threw "TypeError", w')
      ∧ length (slot_cells w') = 3.
Proof.
  assert (H : length [[VStr "🍒"; VStr "🍒"; VStr "🍒"]] < 3) by (simpl; lia).
  split; [exact H|].
  destruct (renderGrid_missing_row full_page cycling
              [[VStr "🍒"; VStr "🍒"; VStr "🍒"]] false fresh H)
    as (w' & E & Hn & _).
  exists w'. split; [exact E|exact Hn].
Defined.

(** ** [highlightWinningCells], cell by cell *)

Lemma for_each_fold {St A} (body : A → M St unit) (F : St → A → St)
    (xs : list A) (s : St) :
  (∀ x s, body x s = (Done tt, F s x)) →
  for_each xs body s = (Done tt, foldl F s xs).
Proof.
  intros Hbody. revert s. induction xs as [|x xs IH]; intros s; [done|].
  cbn [for_each foldl]. rewrite (bind_done _ _ _ _ _ (Hbody x s)). apply IH.
Qed.

Lemma add_winning_spec (idx : nat) (w : world) :
  same_vars w (add_winning idx w) ∧ same_shown w (add_winning idx w)
  ∧ (NoDup (winning_cells w) → NoDup (winning_cells (add_winning idx w)))
  ∧ (∀ i, i ∈ winning_cells (add_winning idx w) ↔ i ∈ winning_cells w ∨ i = idx).
Proof.
  unfold add_winning. case_bool_decide as Hin.
  - split; [done|]. split; [done|]. split; [done|].
    intros i. split; [by left|]. by intros [?| ->].
  - cbn [winning_cells set_winning].
    split; [done|]. split; [done|]. split.
    + intros Hnd. apply NoDup_app. repeat split; [done| |apply NoDup_singleton].
      intros i Hi ->%list_elem_of_singleton. done.
    + intros i. rewrite elem_of_app, list_elem_of_singleton. done.
Qed.

Lemma mark_spec (n : nat) (w : world) (rc : coord) :
  same_vars w (mark n w rc) ∧ same_shown w (mark n w rc)
  ∧ (NoDup (winning_cells w) → NoDup (winning_cells (mark n w rc)))
  ∧ (∀ i, i ∈ winning_cells (mark n w rc)
          ↔ i ∈ winning_cells w ∨ (i < n ∧ i = cell_index rc)).
Proof.
  unfold mark. case_bool_decide as Hlt.
  - destruct (add_winning_spec (cell_index rc) w) as (H1 & H2 & H3 & H4).
    split; [done|]. split; [done|]. split; [done|].
    intros i. rewrite H4. split.
    + intros [?| ->]; [by left|by right].
    + intros [?|[_ ->]]; [by left|by right].
  - split; [done|]. split; [done|]. split; [done|].
    intros i. split; [by left|].
    intros [?|[? ->]]; [done|lia].
Qed.

Lemma mark_line_spec (n : nat) (l : line) (w : world) :
  same_vars w (foldl (mark n) w l) ∧ same_shown w (foldl (mark n) w l)
  ∧ (NoDup (winning_cells w) → NoDup (winning_cells (foldl (mark n) w l)))
  ∧ (∀ i, i ∈ winning_cells (foldl (mark n) w l)
          ↔ i ∈ winning_cells w ∨ (i < n ∧ ∃ rc, rc ∈ l ∧ i = cell_index rc)).
Proof.
  revert w. induction l as [|rc l IH]; intros w.
  { split; [done|]. split; [done|]. split; [done|].
    intros i. split; [by left|].
    intros [?|(_ & rc & Hrc & _)]; [done|]. by apply elem_of_nil in Hrc. }
  cbn [foldl]. destruct (mark_spec n w rc) as (H1 & H2 & H3 & H4).
  destruct (IH (mark n w rc)) as (I1 & I2 & I3 & I4).
  split; [by etrans|]. split; [by etrans|]. split; [auto|].
  intros i. rewrite I4, H4. split.
  - intros [[?|[? ->]]|(? & rc' & ? & ->)]; [by left|right..].
    + split; [done|]. exists rc. split; [left|done].
    + split; [done|]. exists rc'. split; [by right|done].
  - intros [?|(? & rc' & Hin & ->)]; [by left; left|].
    apply elem_of_cons in Hin as [->|Hin]; [left; by right|].
    right. split; [done|]. by exists rc'.
Qed.

Lemma mark_lines_spec (n : nat) (ls : list line) (w : world) :
  same_vars w (foldl (λ w l, foldl (mark n) w l) w ls)
  ∧ same_shown w (foldl (λ w l, foldl (mark n) w l) w ls)
  ∧ (NoDup (winning_cells w)
     → NoDup (winning_cells (foldl (λ w l, foldl (mark n) w l) w ls)))
  ∧ (∀ i, i ∈ winning_cells (foldl (λ w l, foldl (mark n) w l) w ls)
          ↔ i ∈ winning_cells w
            ∨ (i < n ∧ ∃ l rc, l ∈ ls ∧ rc ∈ l ∧ i = cell_index rc)).
Proof.
  revert w. induction ls as [|l ls IH]; intros w.
  { split; [done|]. split; [done|]. split; [done|].
    intros i. split; [by left|].
    intros [?|(_ & l & rc & Hl & _)]; [done|]. by apply elem_of_nil in Hl. }
  cbn [foldl]. destruct (mark_line_spec n l w) as (H1 & H2 & H3 & H4).
  destruct (IH (foldl (mark n) w l)) as (I1 & I2 & I3 & I4).
  split; [by etrans|]. split; [by etrans|]. split; [auto|].
  intros i. rewrite I4, H4. split.
  - intros [[?|(? & rc & ? & ->)]|(? & l' & rc & ? & ? & ->)]; [by left|right..].
    + split; [done|]. exists l, rc. split; [left|done].
    + split; [done|]. exists l', rc. split; [by right|done].
  - intros [?|(? & l' & rc & Hin & ? & ->)]; [by left; left|].
    apply elem_of_cons in Hin as [->|Hin].
    + left. right. split; [done|]. by exists rc.
    + right. split; [done|]. by exists l', rc.
Qed.

Lemma highlight_fold (pg : page) (ls : list line) (w : world) :
  has_gridEl pg = true →
  highlightWinningCells pg ls w
  = (Done tt,
     foldl (λ w' l, foldl (mark (length (slot_cells w))) w' l)
       (set_winning [] w) ls).
Proof.
  intros Hp. unfold highlightWinningCells. rewrite Hp. cbn [negb].
  rewrite bind_gets, bind_modify.
  apply for_each_fold. intros l s. apply for_each_fold. intros rc s'.
  unfold mark, cell_index, when. by case_bool_decide.
Qed.

(** X9.  On a page with a grid element [highlightWinningCells] returns, and
    the cells highlighted afterwards are exactly the cells on the page whose
    index is [r * 3 + c] for a coordinate [(r, c)] of one of the lines
    given, each once: old highlights are removed, a cell on two lines is
    highlighted once, and a coordinate beyond the page is skipped.  Nothing
    but the highlights changes. *)
Theorem highlightWinningCells_marks (pg : page) (ls : list line) (w : world) :
  has_gridEl pg = true →
  ∃ w', highlightWinningCells pg ls w = (Done tt, w')
    ∧ NoDup (winning_cells w')
    ∧ (∀ i, i ∈ winning_cells w'
            ↔ i < length (slot_cells w)
              ∧ ∃ l rc, l ∈ ls ∧ rc ∈ l ∧ i = rc.1 * 3 + rc.2)
    ∧ same_vars w w' ∧ same_shown w w'.
Proof.
  intros Hp. eexists. split; [by apply highlight_fold|].
  destruct (mark_lines_spec (length (slot_cells w)) ls (set_winning [] w))
    as (H1 & H2 & H3 & H4).
  split; [apply H3, NoDup_nil_2|]. split; [|split].
  - intros i. rewrite H4. cbn [winning_cells set_winning].
    rewrite elem_of_nil. unfold cell_index, COLS. tauto.
  - etrans; [|exact H1]. done.
  - etrans; [|exact H2]. done.
Qed.

Lemma highlightWinningCells_marks_witness :
  has_gridEl full_page = true
  ∧ ∃ w', highlightWinningCells full_page [row_line 0; col_line 0] started
          = (Done tt, w')
      ∧ NoDup (winning_cells w').
Proof.
  assert (H : has_gridEl full_page = true) by reflexivity.
  split; [exact H|].
  destruct (highlightWinningCells_marks full_page [row_line 0; col_line 0]
              started H) as (w' & E & Hn & _).
  exists w'. split; [exact E|exact Hn].
Defined.

(** ** What the page shows after a spin *)

Lemma LINES_index (l : line) (rc : coord) :
  l ∈ LINES → rc ∈ l → cell_index rc < 9.
Proof.
  intros (a & b & c & -> & Ha & Hb & Hc)%LINES_triples Hrc.
  rewrite !elem_of_cons, elem_of_nil in Hrc.
  unfold cell_index, COLS.
  destruct Hrc as [->|[->|[->|[]]]];
    match goal with H : in_bounds ?x |- _ ∧ _ => idtac | _ => idtac end;
    unfold in_bounds in *; lia.
Qed.

Section ResumePage.

Variable pg : page.

Variable rnd : nat → nat.

Hypothesis has_grid : has_gridEl pg = true.

(** On a page with a grid element the rest of the spin handler returns,
    shows nine cells and highlights the cells of the winning lines. *)
Lemma spinBtn_resume_page (w : world) :
  ∃ w', spinBtn_resume pg rnd w = (Done tt, w')
    ∧ length (slot_cells w') = 9
    ∧ NoDup (winning_cells w')
    ∧ (∀ i, i ∈ winning_cells w'
            ↔ ∃ l rc, l ∈ filter (λ l, wins (drawn_grid rnd (draws w)) l) LINES
                      ∧ rc ∈ l ∧ i = cell_index rc).
Proof.
  unfold spinBtn_resume.
  rewrite bind_modify.
  rewrite (bind_done _ _ _ _ _ (randomGrid_run rnd _)).
  rewrite bind_modify, bind_gets.
  change (draws (set_pending _ w)) with (draws w).
  set (G := drawn_grid rnd (draws w)).
  change (grid (set_grid G _)) with G.
  set (w2 := set_grid G _).
  rewrite (bind_done _ _ _ _ _
             (renderGrid_fold pg rnd has_grid G false w2 ltac:(simpl; lia))).
  set (w3 := foldl _ _ _).
  assert (H3 : grid w3 = G ∧ length (slot_cells w3) = 9 ∧ winning_cells w3 = []).
  { subst w3.
    destruct (render_fold_frame rnd G cells9 (set_winning [] (set_cells [] w2)))
      as [(_ & Hg & _) Hw].
    rewrite Hg, Hw, render_fold_length. done. }
  destruct H3 as (Hg3 & Hn3 & Hw3).
  rewrite bind_gets, Hg3. subst G. rewrite detect_drawn.
  unfold lift at 1. unfold bind at 1.
  set (ls := filter _ LINES).
  destruct (decide (length ls = 0)) as [Hn|Hn].
  - rewrite Hn. rewrite bool_decide_eq_false_2 by lia.
    apply nil_length_inv in Hn. 
    unfold addFlash, updateSpinDisabledState.
    destruct (has_flashContainer pg), (has_spinBtn pg); simpl;
      (eexists; split; [reflexivity|]);
      cbn [slot_cells winning_cells set_flash set_disabled];
      rewrite Hn3, Hw3, Hn;
      (split; [done|]); (split; [apply NoDup_nil_2|]);
      intros i; rewrite elem_of_nil; (split; [done|]);
      intros (l & rc & Hl & _); by apply elem_of_nil in Hl.
  - rewrite bool_decide_eq_true_2 by lia.
    rewrite bind_assoc.
    rewrite (bind_done _ _ _ _ _ (highlight_fold pg ls w3 has_grid)).
    set (w4 := foldl _ _ ls).
    assert (H4 : length (slot_cells w4) = 9 ∧ NoDup (winning_cells w4)
                 ∧ ∀ i, i ∈ winning_cells w4
                        ↔ ∃ l rc, l ∈ ls ∧ rc ∈ l ∧ i = cell_index rc).
    { subst w4.
      destruct (mark_lines_spec (length (slot_cells w3)) ls (set_winning [] w3))
        as (_ & [Hs _] & Hnd & Hin).
      rewrite Hs. cbn [slot_cells set_winning]. split; [done|].
      split; [apply Hnd, NoDup_nil_2|].
      intros i. rewrite Hin. cbn [winning_cells set_winning].
      rewrite elem_of_nil, Hn3. split.
      - intros [[]|(_ & l & rc & ? & ? & ?)]. by exists l, rc.
      - intros (l & rc & Hl & Hrc & ->). right. split; [|by exists l, rc].
        eapply LINES_index; [|done].
        apply list_elem_of_filter in Hl. apply Hl. }
    destruct H4 as (Hn4 & Hnd4 & Hin4).
    rewrite bind_assoc, bind_modify.
    unfold addFlash, updateSpinDisabledState.
    destruct (has_flashContainer pg), (has_spinBtn pg),
      (bool_decide (length ls = 1)); simpl;
      (eexists; split; [reflexivity|]);
      cbn [slot_cells winning_cells set_flash set_disabled set_credits];
      done.
Qed.

End ResumePage.

Section SpinMore.

Variable pg : page.

Variable rnd : nat → nat.

Lemma ticks_flash (ticks : nat) (w : world) :
  flash (Nat.iter ticks (λ w, (animation_tick rnd true w).2) w) = flash w.
Proof. by destruct (ticks_frame rnd ticks w) as (_ & _ & _ & -> & _). Qed.

(** The state in which the rest of the handler starts, with its messages. *)
Lemma spin_charged_flash (ticks : nat) (w : world) :
  spinBtn_disabled w = false → (SPIN_COST ≤ credits w)%Z →
  ∃ w2, spin pg rnd ticks w = (spinBtn_resume pg rnd w2).2
    ∧ credits w2 = (credits w - SPIN_COST)%Z
    ∧ spinBtn_disabled w2 = false
    ∧ flash w2 = (if has_flashContainer pg then [] else flash w).
Proof.
  intros Hdis Hc.
  destruct (spinBtn_click_charged pg rnd w Hdis Hc)
    as (w1 & E & Hc1 & Hg1 & Hp1 & Hd1 & Hf1 & Hdr1).
  unfold spin. rewrite E.
  destruct (has_gridEl pg).
  - eexists. split; [reflexivity|]. rewrite ticks_flash.
    destruct (ticks_frame rnd ticks w1) as (-> & _ & -> & _ & _). done.
  - by exists w1.
Qed.

End SpinMore.

(** X10.  After a spin on its own, on a page with a grid element, the page
    shows nine cells and the highlighted ones are exactly the cells of the
    winning lines of the new grid, each once (none when no line wins). *)
Theorem spin_highlights_winning_lines
    (pg : page) (rnd : nat → nat) (ticks : nat) (w : world) :
  spinBtn_disabled w = false → (SPIN_COST ≤ credits w)%Z →
  has_gridEl pg = true →
  ∃ ls, detectWinningLines (grid (spin pg rnd ticks w)) = Done ls
    ∧ length (slot_cells (spin pg rnd ticks w)) = 9
    ∧ NoDup (winning_cells (spin pg rnd ticks w))
    ∧ (∀ i, i ∈ winning_cells (spin pg rnd ticks w)
            ↔ ∃ l rc, l ∈ ls ∧ rc ∈ l ∧ i = rc.1 * 3 + rc.2).
Proof.
  intros Hdis Hc Hg.
  destruct (spin_charged pg rnd ticks w Hdis Hc) as (w2 & -> & _).
  destruct (spinBtn_resume_page pg rnd Hg w2) as (w' & E & Hn & Hnd & Hin).
  destruct (spinBtn_resume_run pg rnd w2) as (o & w'' & E' & HG & _).
  rewrite E in E'. injection E' as <- <-. rewrite E. cbn [snd].
  rewrite HG, detect_drawn. eexists. split; [reflexivity|].
  split; [done|]. split; [done|]. exact Hin.
Qed.

Lemma spin_highlights_winning_lines_witness :
  spinBtn_disabled started = false ∧ (SPIN_COST ≤ credits started)%Z
  ∧ has_gridEl full_page = true
  ∧ length (slot_cells (spin full_page cycling 1 started)) = 9
  ∧ NoDup (winning_cells (spin full_page cycling 1 started)).
Proof.
  assert (H1 : spinBtn_disabled started = false) by reflexivity.
  assert (H2 : (SPIN_COST ≤ credits started)%Z) by (vm_compute; discriminate).
  assert (H3 : has_gridEl full_page = true) by reflexivity.
  split; [exact H1|]. split; [exact H2|]. split; [exact H3|].
  destruct (spin_highlights_winning_lines full_page cycling 1 started H1 H2 H3)
    as (ls & _ & Hn & Hnd & _).
  split; [exact Hn|exact Hnd].
Defined.

(** X11.  After a spin on its own, on a page with a grid element and a flash
    container, exactly one message is shown, chosen by the number of
    winning lines of the new grid: the info message for none, the success
    message with 50 for one, the success message with 100 for more; the
    messages of earlier spins are gone. *)
Theorem spin_reports_outcome
    (pg : page) (rnd : nat → nat) (ticks : nat) (w : world) :
  spinBtn_disabled w = false → (SPIN_COST ≤ credits w)%Z →
  has_gridEl pg = true → has_flashContainer pg = true →
  ∃ ls, detectWinningLines (grid (spin pg rnd ticks w)) = Done ls
    ∧ flash (spin pg rnd ticks w)
      = [match length ls with
         | 0 => Alert "alert-info" "No win — try again!"
         | 1 => Alert "alert-success" "✅ 3-in-a-row! +50 credits"
         | _ => Alert "alert-success" "🎉 Multiple 3-in-a-rows! +100 credits"
         end].
Proof.
  intros Hdis Hc Hg Hf.
  destruct (spin_charged_flash pg rnd ticks w Hdis Hc) as (w2 & -> & _ & _ & Hf2).
  destruct (spinBtn_resume_run pg rnd w2) as (o & w' & E & HG & _ & _ & Hwin & _).
  rewrite E. cbn [snd]. rewrite HG, detect_drawn.
  eexists. split; [reflexivity|].
  destruct Hwin as (_ & _ & Hfl & _); [by right|].
  rewrite Hfl, Hf, Hf2, Hf. reflexivity.
Qed.

Lemma spin_reports_outcome_witness :
  spinBtn_disabled started = false ∧ (SPIN_COST ≤ credits started)%Z
  ∧ has_gridEl full_page = true ∧ has_flashContainer full_page = true
  ∧ length (flash (spin full_page cycling 1 started)) = 1.
Proof.
  assert (H1 : spinBtn_disabled started = false) by reflexivity.
  assert (H2 : (SPIN_COST ≤ credits started)%Z) by (vm_compute; discriminate).
  assert (H3 : has_gridEl full_page = true) by reflexivity.
  assert (H4 : has_flashContainer full_page = true) by reflexivity.
  split; [exact H1|]. split; [exact H2|]. split; [exact H3|]. split; [exact H4|].
  destruct (spin_reports_outcome full_page cycling 1 started H1 H2 H3 H4)
    as (ls & _ & Hf).
  rewrite Hf. reflexivity.
Defined.

(** X12.  On a page without a grid element the rest of the spin handler
    still draws and evaluates the new grid; with no winning line it ends
    normally, but with a winning line [highlightWinningCells] throws a
    TypeError before the reward is added: the credits stay at what they
    were after the charge, no message is added and the button is not
    updated. *)
Theorem win_without_grid_element
    (pg : page) (rnd : nat → nat) (w : world) :
  has_gridEl pg = false →
  ∃ o w' ls, spinBtn_resume pg rnd w = (o, w')
    ∧ detectWinningLines (grid w') = Done ls
    ∧ (ls = [] → o = Done tt)
    ∧ (ls ≠ [] →
         o = Threw "TypeError"
         ∧ credits w' = credits w ∧ flash w' = flash w
         ∧ spinBtn_disabled w' = spinBtn_disabled w).
Proof.
  intros Hg.
  destruct (spinBtn_resume_run pg rnd w)
    as (o & w' & E & HG & _ & _ & Hwin & Hthrow).
  exists o, w', (filter (λ l, wins (drawn_grid rnd (draws w)) l) LINES).
  split; [done|]. rewrite HG. split; [apply detect_drawn|].
  split.
  - intros Hnil. destruct Hwin as (-> & _); [|done].
    left. unfold line_count. by rewrite Hnil.
  - intros Hne. apply Hthrow; [|done].
    unfold line_count.
    destruct (filter _ LINES); [done|simpl; lia].
Qed.

Lemma win_without_grid_element_witness :
  has_gridEl no_grid_page = false
  ∧ ∃ o w' ls, spinBtn_resume no_grid_page (λ _, 3) fresh = (o, w')
      ∧ detectWinningLines (grid w') = Done ls.
Proof.
  assert (H : has_gridEl no_grid_page = false) by reflexivity.
  split; [exact H|].
  destruct (win_without_grid_element no_grid_page (λ _, 3) fresh H)
    as (o & w' & ls & E & Hd & _).
  exists o, w', ls. split; [exact E|exact Hd].
Defined.

(** X13.  In a game played one action at a time, on a page with the button
    and the grid element, the spin button is disabled exactly when the
    credits do not cover a spin, and no spin is running between the
    actions. *)
Theorem button_tracks_credits (pg : page) (rnd : nat → nat) (w : world) :
  has_spinBtn pg = true → has_gridEl pg = true → settled pg rnd w →
  (spinBtn_disabled w = true ↔ (credits w < SPIN_COST)%Z)
  ∧ pending w = 0.
Proof.
  intros Hb Hg Hw. split.
  - rewrite (settled_disabled pg rnd Hb Hg w Hw). apply Z.ltb_lt.
  - induction Hw as [w0 Hw0|ticks w Hw IH|w Hw IH].
    + destruct (init_run pg rnd w0 Hw0) as (w' & E & _ & _ & Hp & _).
      by rewrite E.
    + pose proof (settled_disabled pg rnd Hb Hg w Hw) as Hd.
      destruct (spinBtn_disabled w) eqn:Hdis.
      { unfold spin. by rewrite spinBtn_click_disabled. }
      symmetry in Hd. apply Z.ltb_ge in Hd.
      destruct (spin_run pg rnd ticks w Hdis Hd) as (k & _ & _ & _ & Hp & _).
      by rewrite Hp.
    + destruct (resetBtn_click_run pg rnd w) as (w' & E & _ & _ & Hp & _).
      rewrite E. cbn [snd]. by rewrite Hp.
Qed.

Lemma button_tracks_credits_witness :
  has_spinBtn full_page = true ∧ has_gridEl full_page = true
  ∧ settled full_page cycling broke
  ∧ (spinBtn_disabled broke = true ↔ (credits broke < SPIN_COST)%Z)
  ∧ pending broke = 0.
Proof.
  assert (H1 : has_spinBtn full_page = true) by reflexivity.
  assert (H2 : has_gridEl full_page = true) by reflexivity.
  split; [exact H1|]. split; [exact H2|]. split; [exact broke_settled|].
  exact (button_tracks_credits full_page cycling broke H1 H2 broke_settled).
Defined.

(** X14.  The button stays enabled while a spin runs: with credits for two
    spins, a second click during the animation of the first is accepted
    and charged as well, so that two spins run and twice the cost is
    taken. *)
Theorem second_click_charges_again
    (pg : page) (rnd : nat → nat) (w : world) :
  spinBtn_disabled w = false → (2 * SPIN_COST ≤ credits w)%Z →
  ∃ w1 w2, spinBtn_click pg rnd w = (Done true, w1)
    ∧ spinBtn_click pg rnd w1 = (Done true, w2)
    ∧ spinBtn_disabled w1 = false
    ∧ credits w2 = (credits w - 2 * SPIN_COST)%Z
    ∧ pending w2 = 2 + pending w.
Proof.
  intros Hdis Hc. unfold SPIN_COST in Hc.
  destruct (spinBtn_click_charged pg rnd w Hdis ltac:(unfold SPIN_COST; lia))
    as (w1 & E1 & Hc1 & _ & Hp1 & Hd1 & _).
  destruct (spinBtn_click_charged pg rnd w1 Hd1
              ltac:(rewrite Hc1; unfold SPIN_COST; lia))
    as (w2 & E2 & Hc2 & _ & Hp2 & _).
  exists w1, w2. rewrite Hc2, Hc1, Hp2, Hp1. unfold SPIN_COST.
  repeat split; try done. lia.
Qed.

Lemma second_click_charges_again_witness :
  spinBtn_disabled started = false ∧ (2 * SPIN_COST ≤ credits started)%Z
  ∧ ∃ w1 w2, spinBtn_click full_page cycling started = (Done true, w1)
      ∧ spinBtn_click full_page cycling w1 = (Done true, w2)
      ∧ credits w2 = (credits started - 2 * SPIN_COST)%Z.
Proof.
  assert (H1 : spinBtn_disabled started = false) by reflexivity.
  assert (H2 : (2 * SPIN_COST ≤ credits started)%Z) by (vm_compute; discriminate).
  split; [exact H1|]. split; [exact H2|].
  destruct (second_click_charges_again full_page cycling started H1 H2)
    as (w1 & w2 & E1 & E2 & _ & Hc & _).
  exists w1, w2. split; [exact E1|]. split; [exact E2|exact Hc].
Defined.

(** X15.  A reset does not stop a spin that is running: when that spin's
    animation ends after the reset, its handler still stores a drawn grid
    in place of the empty one and adds its payout to the 100 credits of the
    reset. *)
Theorem reset_keeps_spin_in_flight
    (pg : page) (rnd : nat → nat) (w : world) :
  has_resetBtn pg = true → has_gridEl pg = true → 0 < pending w →
  ∃ w1 w2 ls,
    fire pg rnd ResetClick w = Some w1
    ∧ pending w1 = pending w
    ∧ fire pg rnd AnimationEnd w1 = Some w2
    ∧ detectWinningLines (grid w2) = Done ls
    ∧ grid w2 ≠ makeEmptyGrid
    ∧ credits w2 = (100 + payout (length ls))%Z.
Proof.
  intros Hr Hg Hp.
  destruct (resetBtn_click_run pg rnd w) as (w1 & E1 & Hc1 & _ & Hp1 & _).
  destruct (spinBtn_resume_run pg rnd w1)
    as (o & w2 & E2 & HG & _ & _ & Hwin & _).
  exists w1, w2, (filter (λ l, wins (drawn_grid rnd (draws w1)) l) LINES).
  split; [unfold fire; by rewrite Hr, E1|].
  split; [done|].
  split; [unfold fire; rewrite bool_decide_eq_true_2 by lia; by rewrite E2|].
  rewrite HG. split; [apply detect_drawn|]. split.
  - unfold drawn_grid, makeEmptyGrid. simpl. intros [= H0 _].
    unfold sym in H0. destruct (symbols !! rnd (draws w1)) as [s|] eqn:Hs; [|done].
    simpl in H0. injection H0 as ->.
    apply list_elem_of_lookup_2 in Hs. revert Hs.
    apply (bool_decide_unpack _). vm_compute. exact I.
  - destruct Hwin as (_ & -> & _); [by right|]. by rewrite Hc1.
Qed.

Lemma reset_keeps_spin_in_flight_witness :
  has_resetBtn full_page = true ∧ has_gridEl full_page = true
  ∧ 0 < pending mid_spin
  ∧ ∃ w1 w2, fire full_page cycling ResetClick mid_spin = Some w1
      ∧ fire full_page cycling AnimationEnd w1 = Some w2
      ∧ grid w2 ≠ makeEmptyGrid.
Proof.
  assert (H1 : has_resetBtn full_page = true) by reflexivity.
  assert (H2 : has_gridEl full_page = true) by reflexivity.
  split; [exact H1|]. split; [exact H2|]. split; [exact mid_spin_pending|].
  destruct (reset_keeps_spin_in_flight full_page cycling mid_spin H1 H2
              mid_spin_pending) as (w1 & w2 & ls & E1 & _ & E2 & _ & Hg & _).
  exists w1, w2. split; [exact E1|]. split; [exact E2|exact Hg].
Defined.

(** ** The page in the states the game can reach *)

Section PageFacts.

Variable pg : page.

Variable rnd : nat → nat.

Hypothesis has_grid : has_gridEl pg = true.

Lemma page_ok_frame (w w' : world) :
  slot_cells w' = slot_cells w → winning_cells w' = winning_cells w →
  page_ok w → page_ok w'.
Proof. unfold page_ok. by intros -> ->. Qed.

Lemma render_page (g : grid_t) (w : world) :
  page_ok (foldl (render_cell rnd g) (set_winning [] (set_cells [] w)) cells9).
Proof.
  destruct (render_fold_frame rnd g cells9 (set_winning [] (set_cells [] w)))
    as [_ Hw].
  unfold page_ok. rewrite Hw, render_fold_length.
  split; [done|]. split; [apply NoDup_nil_2|apply Forall_nil_2].
Qed.

Lemma render_nine (g : grid_t) (w : world) :
  length (slot_cells
            (foldl (render_cell rnd g) (set_winning [] (set_cells [] w)) cells9))
  = 9.
Proof. by rewrite render_fold_length. Qed.

Lemma page_ok_shown (w w' : world) :
  same_shown w w' → winning_cells w' = [] → length (slot_cells w) = 9 →
  page_ok w'.
Proof.
  intros [Hs _] Hwn Hn. unfold page_ok. rewrite Hs, Hwn.
  split; [done|]. split; [apply NoDup_nil_2|apply Forall_nil_2].
Qed.

Lemma blank_symbols (g : grid_t) (cs : list coord) (ts : list string) :
  Forall (blank g) cs → Forall2 (shows g) cs ts → Forall (λ t, t ∈ symbols) ts.
Proof.
  intros Hb Hs. induction Hs as [|rc t cs ts Hs _ IH]; [done|].
  apply Forall_cons in Hb as [Hb Hbs]. constructor; [|auto].
  unfold shows in Hs. unfold blank in Hb. by rewrite Hb in Hs.
Qed.

(** Rendering the empty grid draws nine symbols and shows them. *)
Lemma render_empty (w : world) :
  fair rnd →
  let w' := foldl (render_cell rnd makeEmptyGrid)
              (set_winning [] (set_cells [] w)) cells9 in
  Forall (λ t, t ∈ symbols) (slot_cells w') ∧ draws w' = draws w + 9.
Proof.
  intros Hfair w'. subst w'.
  assert (Hb : Forall (blank makeEmptyGrid) cells9).
  { apply (bool_decide_unpack _). vm_compute. exact I. }
  split.
  - destruct (render_fold_texts rnd makeEmptyGrid cells9
                (set_winning [] (set_cells [] w)) Hfair) as (ts & -> & Hts).
    by eapply blank_symbols.
  - rewrite render_fold_draws.
    replace (filter (blank makeEmptyGrid) cells9) with cells9; [done|].
    symmetry. clear -Hb. induction Hb as [|rc cs H _ IH]; [done|].
    by rewrite filter_cons_True, IH.
Qed.

Lemma renderGrid_named (g : grid_t) (transient : bool) (w : world) :
  3 ≤ length g →
  ∃ w3, renderGrid pg rnd g transient w = (Done tt, w3)
    ∧ w3 = foldl (render_cell rnd g) (set_winning [] (set_cells [] w)) cells9
    ∧ winning_cells w3 = [].
Proof.
  intros Hg. eexists. split; [by apply renderGrid_fold|]. split; [done|].
  by destruct (render_fold_frame rnd g cells9 (set_winning [] (set_cells [] w)))
    as [_ ->].
Qed.

Lemma resetBtn_click_shown (w : world) :
  ∃ w', resetBtn_click pg rnd w = (Done tt, w')
    ∧ same_shown
        (foldl (render_cell rnd makeEmptyGrid)
           (set_winning []
              (set_cells [] (set_grid makeEmptyGrid (set_credits 100 w))))
           cells9) w'
    ∧ winning_cells w' = [].
Proof.
  unfold resetBtn_click. rewrite !bind_modify, bind_gets.
  change (grid (set_grid makeEmptyGrid _)) with makeEmptyGrid.
  assert (HE : 3 ≤ length makeEmptyGrid) by (unfold makeEmptyGrid; simpl; lia).
  destruct (renderGrid_named makeEmptyGrid false
              (set_grid makeEmptyGrid (set_credits 100 w)) HE)
    as (w3 & E & Heq & Hw3).
  rewrite <- Heq. clear Heq.
  rewrite (bind_done _ _ _ _ _ E), bind_gets.
  rewrite (bind_done _ _ _ _ _ (updateCredits_same pg _ _)).
  rewrite (bind_done _ _ _ _ _ (clearFlash_run pg _)).
  unfold addFlash, updateSpinDisabledState.
  destruct (has_flashContainer pg), (has_spinBtn pg);
    (eexists; split; [reflexivity|]); done.
Qed.

Lemma init_shown (w : world) :
  loaded w →
  ∃ w', init pg rnd w = (Done tt, w')
    ∧ same_shown
        (foldl (render_cell rnd makeEmptyGrid)
           (set_winning [] (set_cells [] w)) cells9) w'
    ∧ winning_cells w' = [].
Proof.
  intros (_ & Hg & _). unfold init. rewrite bind_gets.
  rewrite (bind_done _ _ _ _ _ (updateCredits_same pg _ _)), bind_gets, Hg.
  assert (HE : 3 ≤ length makeEmptyGrid) by (unfold makeEmptyGrid; simpl; lia).
  destruct (renderGrid_named makeEmptyGrid false w HE)
    as (w3 & E & Heq & Hw3).
  rewrite <- Heq. clear Heq.
  rewrite (bind_done _ _ _ _ _ E), updateSpinDisabledState_run.
  destruct (has_spinBtn pg); (eexists; split; [reflexivity|]); done.
Qed.

Lemma spinBtn_click_page (w : world) :
  has_spinBtn pg = true →
  spinBtn_disabled w = false → (SPIN_COST ≤ credits w)%Z →
  page_ok (spinBtn_click pg rnd w).2.
Proof.
  intros Hb Hdis Hc. unfold spinBtn_click.
  rewrite bind_gets, Hdis.
  rewrite (bind_done _ _ _ _ _ (clearFlash_run pg w)).
  set (w1 := if has_flashContainer pg then _ else _).
  assert (Hc1 : credits w1 = credits w)
    by (subst w1; by destruct (has_flashContainer pg)).
  rewrite bind_gets, Hc1.
  apply Z.ltb_ge in Hc as Hc'. rewrite Hc'.
  rewrite bind_modify, bind_gets.
  rewrite (bind_done _ _ _ _ _ (updateCredits_same pg _ _)).
  unfold startSpinAnimation. rewrite Hb, has_grid. cbn [negb orb].
  change (array_from ROWS (array_from COLS (randomSymbol rnd)))
    with (randomGrid rnd).
  rewrite !bind_assoc.
  rewrite (bind_done _ _ _ _ _ (randomGrid_run rnd _)).
  erewrite bind_done
    by (apply (renderGrid_fold pg rnd has_grid); simpl; lia).
  rewrite bind_modify. cbn [snd ret].
  match goal with
  | |- page_ok (set_pending _ (foldl (render_cell rnd ?g)
                                 (set_winning [] (set_cells [] ?w0)) cells9)) =>
      generalize (render_page g w0);
      generalize (foldl (render_cell rnd g)
                    (set_winning [] (set_cells [] w0)) cells9)
  end.
  intros w3 H3. by apply (page_ok_frame w3).
Qed.

Lemma animation_tick_page (attached : bool) (w : world) :
  page_ok w → page_ok (animation_tick rnd attached w).2.
Proof.
  intros (Hn & Hnd & Hlt). destruct w, attached; unfold page_ok; simpl in *; done.
Qed.

Lemma fire_page (e : event) (w w' : world) :
  page_ok w → fire pg rnd e w = Some w' → page_ok w'.
Proof.
  intros Hw. destruct e as [|attached| |]; simpl.
  - destruct (has_spinBtn pg) eqn:Hb; [|done]. intros [= <-].
    destruct (spinBtn_disabled w) eqn:Hdis.
    { by rewrite spinBtn_click_disabled. }
    destruct (decide (credits w < SPIN_COST)%Z) as [Hc|Hc].
    + destruct (spinBtn_click_rejected pg rnd w Hdis Hc)
        as (w1 & E & _ & _ & Hs & Hwn & _).
      rewrite E. unfold page_ok. cbn [snd]. by rewrite Hs, Hwn.
    + apply spinBtn_click_page; [done|done|lia].
  - destruct (has_gridEl pg && bool_decide (0 < pending w)); [|done].
    intros [= <-]. by apply animation_tick_page.
  - destruct (bool_decide (0 < pending w)); [|done]. intros [= <-].
    destruct (spinBtn_resume_page pg rnd has_grid w) as (w1 & E & Hn & Hnd & Hin).
    rewrite E. cbn [snd]. split; [done|]. split; [done|].
    apply Forall_forall. intros i (l & rc & Hl & Hrc & ->)%Hin.
    eapply LINES_index; [|done]. apply list_elem_of_filter in Hl. apply Hl.
  - destruct (has_resetBtn pg); [|done]. intros [= <-].
    destruct (resetBtn_click_shown w) as (w1 & E & Hs & Hwn).
    rewrite E. cbn [snd].
    exact (page_ok_shown _ w1 Hs Hwn (render_nine _ _)).
Qed.

End PageFacts.

(** X16.  In every state the game can reach, on a page with a grid element,
    the page shows exactly nine cells, and the highlighted cells are
    distinct cells among these nine. *)
Theorem page_shows_nine_cells (pg : page) (rnd : nat → nat) (w : world) :
  has_gridEl pg = true → reachable pg rnd w →
  length (slot_cells w) = 9
  ∧ NoDup (winning_cells w)
  ∧ Forall (λ i, i < 9) (winning_cells w).
Proof.
  intros Hg. induction 1 as [w0 Hw0|w e w' _ IH Hfire].
  - destruct (init_shown pg rnd Hg w0 Hw0) as (w1 & E & Hs & Hwn).
    rewrite E. cbn [snd].
    exact (page_ok_shown _ w1 Hs Hwn (render_nine rnd _ _)).
  - by apply (fire_page pg rnd Hg e w w').
Qed.

Lemma page_shows_nine_cells_witness :
  has_gridEl full_page = true ∧ reachable full_page cycling broke
  ∧ length (slot_cells broke) = 9.
Proof.
  assert (H : has_gridEl full_page = true) by reflexivity.
  split; [exact H|]. split; [exact broke_reachable|].
  exact (proj1 (page_shows_nine_cells full_page cycling broke H broke_reachable)).
Defined.

(** X17.  After a reset the stored grid is empty but the page is not: on a
    page with a grid element, with draws that stay within the alphabet, the
    nine cells shown each hold one of the seven symbols, nine draws were
    made for them, and none is highlighted. *)
Theorem reset_shows_symbols (pg : page) (rnd : nat → nat) (w : world) :
  has_gridEl pg = true → fair rnd →
  Forall (Forall (λ v, v = VStr "")) (grid (resetBtn_click pg rnd w).2)
  ∧ length (slot_cells (resetBtn_click pg rnd w).2) = 9
  ∧ Forall (λ t, t ∈ symbols) (slot_cells (resetBtn_click pg rnd w).2)
  ∧ winning_cells (resetBtn_click pg rnd w).2 = []
  ∧ draws (resetBtn_click pg rnd w).2 = draws w + 9.
Proof.
  intros Hg Hfair.
  destruct (resetBtn_click_run pg rnd w) as (w1 & E1 & _ & Hgr & _).
  destruct (resetBtn_click_shown pg rnd Hg w) as (w' & E & [Hs Hd] & Hwn).
  rewrite E in E1. injection E1 as <-. rewrite E. cbn [snd].
  rewrite Hgr, Hs, Hd, Hwn.
  destruct (render_empty rnd
              (set_grid makeEmptyGrid (set_credits 100 w)) Hfair) as [H1 H2].
  pose proof (render_nine rnd makeEmptyGrid
                (set_grid makeEmptyGrid (set_credits 100 w))) as H3.
  split; [|done].
  repeat apply Forall_cons_2; by try apply Forall_nil_2.
Qed.

Lemma reset_shows_symbols_witness :
  has_gridEl full_page = true ∧ fair cycling
  ∧ Forall (λ t, t ∈ symbols)
      (slot_cells (resetBtn_click full_page cycling broke).2).
Proof.
  assert (H : has_gridEl full_page = true) by reflexivity.
  split; [exact H|]. split; [exact cycling_fair|].
  destruct (reset_shows_symbols full_page cycling broke H cycling_fair)
    as (_ & _ & Hs & _).
  exact Hs.
Defined.

(** ** The grid and the credits in the states the game can reach *)

Section Invariants.

Variable pg : page.

Variable rnd : nat → nat.

Lemma fire_grid (e : event) (w w' : world) :
  fire pg rnd e w = Some w' →
  grid w' = grid w ∨ grid w' = makeEmptyGrid ∨ ∃ k, grid w' = drawn_grid rnd k.
Proof.
  destruct e as [|attached| |]; simpl.
  - destruct (has_spinBtn pg); [|done]. intros [= <-]. left.
    destruct (spinBtn_disabled w) eqn:Hdis.
    { by rewrite spinBtn_click_disabled. }
    destruct (decide (credits w < SPIN_COST)%Z) as [Hc|Hc].
    + destruct (spinBtn_click_rejected pg rnd w Hdis Hc) as (w1 & -> & _ & Hg & _).
      done.
    + destruct (spinBtn_click_charged pg rnd w Hdis ltac:(lia))
        as (w1 & -> & _ & Hg & _).
      done.
  - destruct (has_gridEl pg && bool_decide (0 < pending w)); [|done].
    intros [= <-]. left.
    by destruct (animation_tick_frame rnd attached w) as (_ & Hg & _).
  - destruct (bool_decide (0 < pending w)); [|done]. intros [= <-].
    destruct (spinBtn_resume_run pg rnd w) as (o & w1 & -> & Hg & _).
    right. right. by exists (draws w).
  - destruct (has_resetBtn pg); [|done]. intros [= <-].
    destruct (resetBtn_click_run pg rnd w) as (w1 & -> & _ & Hg & _).
    right. by left.
Qed.

Lemma detect_empty : detectWinningLines makeEmptyGrid = Done [].
Proof. reflexivity. Qed.

Lemma is3x3_empty : is3x3 makeEmptyGrid.
Proof. split; [done|]. repeat apply Forall_cons_2; by try apply Forall_nil_2. Qed.

Lemma is3x3_drawn (k : nat) : is3x3 (drawn_grid rnd k).
Proof. split; [done|]. repeat apply Forall_cons_2; by try apply Forall_nil_2. Qed.

Lemma payout_cost (n : nat) : (SPIN_COST | payout n)%Z.
Proof.
  destruct n as [|[|n]]; cbn [payout].
  - by exists 0%Z.
  - by exists 5%Z.
  - by exists 10%Z.
Qed.

Lemma fire_credits_cost (e : event) (w w' : world) :
  (SPIN_COST | credits w)%Z → fire pg rnd e w = Some w' →
  (SPIN_COST | credits w')%Z.
Proof.
  intros Hw. destruct e as [|attached| |]; simpl.
  - destruct (has_spinBtn pg); [|done]. intros [= <-].
    destruct (spinBtn_disabled w) eqn:Hdis.
    { by rewrite spinBtn_click_disabled. }
    destruct (decide (credits w < SPIN_COST)%Z) as [Hc|Hc].
    + destruct (spinBtn_click_rejected pg rnd w Hdis Hc) as (w1 & -> & Hc1 & _).
      cbn [snd]. by rewrite Hc1.
    + destruct (spinBtn_click_charged pg rnd w Hdis ltac:(lia))
        as (w1 & -> & Hc1 & _).
      cbn [snd]. rewrite Hc1. apply Z.divide_sub_r; [done|apply Z.divide_refl].
  - destruct (has_gridEl pg && bool_decide (0 < pending w)); [|done].
    intros [= <-].
    destruct (animation_tick_frame rnd attached w) as (Hc1 & _).
    by rewrite Hc1.
  - destruct (bool_decide (0 < pending w)); [|done]. intros [= <-].
    destruct (spinBtn_resume_run pg rnd w)
      as (o & w1 & -> & _ & _ & _ & Hwin & Hthrow).
    cbn [snd].
    destruct (decide (line_count (drawn_grid rnd (draws w)) = 0)) as [Hn|Hn].
    { destruct Hwin as (_ & Hc1 & _); [by left|]. rewrite Hc1.
      apply Z.divide_add_r; [done|apply payout_cost]. }
    destruct (has_gridEl pg) eqn:Hg.
    + destruct Hwin as (_ & Hc1 & _); [by right|]. rewrite Hc1.
      apply Z.divide_add_r; [done|apply payout_cost].
    + destruct Hthrow as (_ & Hc1 & _); [lia|done|by rewrite Hc1].
  - destruct (has_resetBtn pg); [|done]. intros [= <-].
    rewrite reset_credits. by exists 10%Z.
Qed.

Lemma keydown_fire (code : string) (w : world) :
  (keydown pg rnd code w).1 = true →
  fire pg rnd SpinClick w = Some (keydown pg rnd code w).2.
Proof.
  unfold keydown, fire.
  destruct (bool_decide (code = "Space")); [|done].
  destruct (has_spinBtn pg); [|done].
  by destruct (spinBtn_disabled w).
Qed.

End Invariants.

Section SettledCredits.

Variable pg : page.

Variable rnd : nat → nat.

Hypothesis has_button : has_spinBtn pg = true.

Hypothesis has_grid : has_gridEl pg = true.

Lemma settled_credits (w : world) :
  settled pg rnd w → (0 ≤ credits w)%Z ∧ (SPIN_COST | credits w)%Z.
Proof.
  induction 1 as [w0 Hw0|ticks w Hw IH|w _ IH].
  - destruct (init_run pg rnd w0 Hw0) as (w' & E & Hc & _).
    rewrite E. cbn [snd]. rewrite Hc. split; [done|by exists 10%Z].
  - pose proof (settled_disabled pg rnd has_button has_grid w Hw) as Hd.
    destruct (spinBtn_disabled w) eqn:Hdis.
    { unfold spin. by rewrite spinBtn_click_disabled. }
    symmetry in Hd. apply Z.ltb_ge in Hd.
    destruct (spin_run pg rnd ticks w Hdis Hd) as (k & _ & _ & _ & _ & _ & Hc & _).
    rewrite Hc by (by right). destruct IH as [IH1 IH2].
    pose proof (payout_nonneg (line_count (drawn_grid rnd k))).
    split; [lia|].
    apply Z.divide_add_r; [|apply payout_cost].
    apply Z.divide_sub_r; [done|apply Z.divide_refl].
  - rewrite reset_credits. split; [done|by exists 10%Z].
Qed.

End SettledCredits.

(** X18.  In every state the game can reach the stored grid is either the
    empty grid or a grid of nine draws; it has three rows of three cells,
    and [detectWinningLines] returns on it. *)
Theorem reachable_grid (pg : page) (rnd : nat → nat) (w : world) :
  reachable pg rnd w →
  (grid w = makeEmptyGrid ∨ ∃ k, grid w = drawn_grid rnd k)
  ∧ is3x3 (grid w)
  ∧ ∃ ls, detectWinningLines (grid w) = Done ls.
Proof.
  intros Hw.
  assert (H : grid w = makeEmptyGrid ∨ ∃ k, grid w = drawn_grid rnd k).
  { induction Hw as [w0 Hw0|w e w' _ IH Hfire].
    - destruct (init_run pg rnd w0 Hw0) as (w' & E & _ & Hg & _).
      rewrite E. by left.
    - destruct (fire_grid pg rnd e w w' Hfire) as [->|[->|[k ->]]];
        [done|by left|right; by exists k]. }
  split; [done|].
  destruct H as [->|[k ->]].
  - split; [apply is3x3_empty|]. exists []. apply detect_empty.
  - split; [apply is3x3_drawn|]. eexists. apply detect_drawn.
Qed.

Lemma reachable_grid_witness :
  reachable full_page cycling broke
  ∧ is3x3 (grid broke)
  ∧ ∃ ls, detectWinningLines (grid broke) = Done ls.
Proof.
  split; [exact broke_reachable|].
  exact (proj2 (reachable_grid full_page cycling broke broke_reachable)).
Defined.

(** X19.  In every state the game can reach the credits are a whole number
    of spins: a non-negative multiple of the cost of 10. *)
Theorem credits_whole_spins (pg : page) (rnd : nat → nat) (w : world) :
  reachable pg rnd w → ∃ k : Z, (0 ≤ k)%Z ∧ credits w = (k * SPIN_COST)%Z.
Proof.
  intros Hw.
  assert (H : (0 ≤ credits w)%Z ∧ (SPIN_COST | credits w)%Z).
  { induction Hw as [w0 Hw0|w e w' _ [IH1 IH2] Hfire].
    - destruct (init_run pg rnd w0 Hw0) as (w' & E & Hc & _).
      rewrite E. cbn [snd]. rewrite Hc. split; [done|by exists 10%Z].
    - split; [by eapply fire_credits|by eapply fire_credits_cost]. }
  destruct H as [H0 [k Hk]]. exists k. split; [|done].
  unfold SPIN_COST in *. lia.
Qed.

Lemma credits_whole_spins_witness :
  reachable full_page cycling mid_spin
  ∧ ∃ k : Z, (0 ≤ k)%Z ∧ credits mid_spin = (k * SPIN_COST)%Z.
Proof.
  split; [exact mid_spin_reachable|].
  exact (credits_whole_spins full_page cycling mid_spin mid_spin_reachable).
Defined.

(** X20.  In a game played one action at a time, on a page with the button
    and the grid element, the spin button is disabled exactly when the
    credits are zero. *)
Theorem game_over_at_zero (pg : page) (rnd : nat → nat) (w : world) :
  has_spinBtn pg = true → has_gridEl pg = true → settled pg rnd w →
  (spinBtn_disabled w = true ↔ credits w = 0%Z).
Proof.
  intros Hb Hg Hw.
  rewrite (settled_disabled pg rnd Hb Hg w Hw).
  destruct (settled_credits pg rnd Hb Hg w Hw) as [H0 [k Hk]].
  rewrite Z.ltb_lt. unfold SPIN_COST in *. lia.
Qed.

Lemma game_over_at_zero_witness :
  has_spinBtn full_page = true ∧ has_gridEl full_page = true
  ∧ settled full_page cycling broke
  ∧ (spinBtn_disabled broke = true ↔ credits broke = 0%Z).
Proof.
  assert (H1 : has_spinBtn full_page = true) by reflexivity.
  assert (H2 : has_gridEl full_page = true) by reflexivity.
  split; [exact H1|]. split; [exact H2|]. split; [exact broke_settled|].
  exact (game_over_at_zero full_page cycling broke H1 H2 broke_settled).
Defined.

(** X21.  The keyboard adds nothing to the game: a key press either leaves
    the state as it is, without preventing the key's default action, or it
    is the space bar and the state afterwards is that of a click on the
    spin button, whose handler returns; states reached with key presses are
    states reached with clicks. *)
Theorem keydown_reachable
    (pg : page) (rnd : nat → nat) (code : string) (w : world) :
  reachable pg rnd w →
  reachable pg rnd (keydown pg rnd code w).2
  ∧ ((keydown pg rnd code w).1 = false → (keydown pg rnd code w).2 = w)
  ∧ ((keydown pg rnd code w).1 = true →
       code = "Space" ∧ (keydown pg rnd code w).2 = (spinBtn_click pg rnd w).2
       ∧ ∃ b, spinBtn_click pg rnd w = (Done b, (keydown pg rnd code w).2)).
Proof.
  intros Hw. split; [|split].
  - destruct (keydown pg rnd code w).1 eqn:E.
    + eapply reach_fire; [exact Hw|]. by apply keydown_fire.
    + revert E. unfold keydown. by destruct (_ && _).
  - unfold keydown. by destruct (_ && _).
  - unfold keydown.
    destruct (bool_decide (code = "Space")) eqn:Hc; [|done].
    apply bool_decide_eq_true in Hc.
    destruct (has_spinBtn pg); [|done].
    destruct (spinBtn_disabled w) eqn:Hdis; [done|]. intros _.
    split; [done|]. split; [done|]. cbn [snd].
    destruct (decide (credits w < SPIN_COST)%Z) as [Hlt|Hge].
    + destruct (spinBtn_click_rejected pg rnd w Hdis Hlt) as (w1 & -> & _).
      by exists false.
    + destruct (spinBtn_click_charged pg rnd w Hdis ltac:(lia)) as (w1 & -> & _).
      by exists true.
Qed.

Lemma keydown_reachable_witness :
  reachable full_page cycling started
  ∧ reachable full_page cycling (keydown full_page cycling "Space" started).2.
Proof.
  split; [exact started_reachable|].
  exact (proj1 (keydown_reachable full_page cycling "Space" started
                  started_reachable)).
Defined.

(** X22.  In a game played one action at a time, on a page with a grid
    element, a key press without the credits for a spin does nothing at
    all: the state is unchanged, no rejection is shown, and the default
    action of the key is not prevented. *)
Theorem keydown_without_credits
    (pg : page) (rnd : nat → nat) (code : string) (w : world) :
  has_gridEl pg = true → settled pg rnd w → (credits w < SPIN_COST)%Z →
  keydown pg rnd code w = (false, w).
Proof.
  intros Hg Hw Hc. unfold keydown.
  destruct (has_spinBtn pg) eqn:Hb; [|by rewrite andb_false_r].
  rewrite (settled_disabled pg rnd Hb Hg w Hw).
  apply Z.ltb_lt in Hc. rewrite Hc. by rewrite andb_false_r.
Qed.

Lemma keydown_without_credits_witness :
  has_gridEl full_page = true ∧ settled full_page cycling broke
  ∧ (credits broke < SPIN_COST)%Z
  ∧ keydown full_page cycling "Space" broke = (false, broke).
Proof.
  assert (H1 : has_gridEl full_page = true) by reflexivity.
  assert (H2 : (credits broke < SPIN_COST)%Z) by (rewrite broke_credits; done).
  split; [exact H1|]. split; [exact broke_settled|]. split; [exact H2|].
  exact (keydown_without_credits full_page cycling "Space" broke H1
           broke_settled H2).
Defined.

(** ** Eight changes per cell *)

Lemma period_early (rnd : nat → nat) (s : span_state) :
  cleared s = false → changeCount s < maxChanges →
  period rnd s
  = Span (text_of (sym rnd (drawn s))) (S (changeCount s)) false (S (drawn s)).
Proof.
  intros Hc Hn. unfold period, changeInterval. rewrite Hc.
  by rewrite (proj2 (Nat.leb_gt _ _) Hn).
Qed.

Lemma periods_early (rnd : nat → nat) (text : string) (d n : nat) :
  n ≤ maxChanges →
  Nat.iter n (period rnd) (startRapidChange text d)
  = Span (match n with 0 => text | S m => text_of (sym rnd (d + m)) end)
      n false (d + n).
Proof.
  induction n as [|n IH]; intros Hn.
  - unfold startRapidChange. simpl. by rewrite Nat.add_0_r.
  - rewrite Nat.iter_succ, IH by lia.
    rewrite period_early by (simpl; lia). simpl. f_equal. lia.
Qed.

Lemma periods_late (rnd : nat → nat) (text : string) (d n : nat) :
  Nat.iter (S maxChanges + n) (period rnd) (startRapidChange text d)
  = Span (text_of (sym rnd (d + 7))) maxChanges true (d + maxChanges).
Proof.
  induction n as [|n IH].
  - rewrite Nat.add_0_r, Nat.iter_succ, periods_early by lia. reflexivity.
  - rewrite <- Nat.add_succ_comm. change (S (S maxChanges) + n)
      with (S (S maxChanges + n)).
    rewrite Nat.iter_succ, IH. reflexivity.
Qed.

(** X23.  [startRapidChange] of static/script.js changes the symbol of its
    cell exactly eight times: after [n] periods of the interval the span
    was changed [min n 8] times, with as many draws, it shows the last
    symbol drawn (its old text before the first period), and the interval
    is cleared from the ninth period on. *)
Theorem startRapidChange_eight_changes
    (rnd : nat → nat) (text : string) (d n : nat) :
  let s := Nat.iter n (period rnd) (startRapidChange text d) in
  changeCount s = n `min` 8
  ∧ drawn s = d + n `min` 8
  ∧ (cleared s = true ↔ 8 < n)
  ∧ textContent s
    = match n `min` 8 with
      | 0 => text
      | S m => text_of (sym rnd (d + m))
      end.
Proof.
  destruct (decide (n ≤ 8)) as [Hn|Hn].
  - rewrite periods_early by exact Hn. cbn [changeCount drawn cleared textContent].
    rewrite Nat.min_l by exact Hn.
    split; [done|]. split; [done|]. split; [|done].
    split; [done|lia].
  - replace n with (S maxChanges + (n - 9)) by (unfold maxChanges; lia).
    rewrite periods_late. cbn [changeCount drawn cleared textContent].
    rewrite Nat.min_r by (unfold maxChanges; lia).
    split; [done|]. split; [done|]. split; [|done].
    split; [unfold maxChanges; lia|done].
Qed.
